(** * PlatformIO task provider (src/tasks.js): a shallow embedding

    The file follows the source: the fixed catalog [baseTasks], the platform
    filter [taskCompatibleWithPlatform], the [TaskCreator] class with its
    getters and [create], the asynchronous [getTasks] (file read, INI parse,
    try/catch, the three push loops), the start-up cleanup
    [removeStaticTasks] and the debounce / lifecycle glue
    ([requestRefresh], [refresh], [dispose], [addProjectConfigWatcher]).

    Conventions.
    - JavaScript strings are [string]; the only string operations the code
      uses are equality, [startsWith], [slice] by the length of an ASCII
      prefix and concatenation.
    - A parsed configuration (the value of [ini.parse]) is an object used as
      an ordered map: an association list whose order is the order of
      [Object.keys], each key once.  Section names that matter start with
      [env:], so they are never integer-like keys and [Object.keys] lists
      them in the order of their insertion.
    - The values of a parsed configuration are the values the ini package
      produces ([Value]): [null], booleans, strings, arrays and objects,
      at the top level and inside a section.  [getTasks] runs on them as
      JavaScript does ([Untyped]): reading a property of [null] throws and
      so does calling [startsWith] on a value that is not a string, both
      after the try block.  [ProjectConf] and the definitions on it are the
      same code on a configuration whose sections hold strings; [typed] and
      [well_typed] relate the two.
    - The host (node, vscode) is a record of the values and functions the
      code reads from it. *)

From Stdlib Require Import String Ascii List Bool Arith Lia.
Import ListNotations.
Open Scope string_scope.
Open Scope list_scope.

(* ================================================================== *)
(** ** JavaScript library functions used by the source *)
(* ================================================================== *)

Module JS.

(** [Array.prototype.includes] on an array of strings. *)
Definition includes (x : string) (l : list string) : bool :=
  existsb (String.eqb x) l.

(** [String.prototype.startsWith]. *)
Definition startsWith (s p : string) : bool := String.prefix p s.

(** [String.prototype.slice(n)] with a single non-negative argument. *)
Definition slice_from (n : nat) (s : string) : string :=
  String.substring n (String.length s - n) s.

(** [Array.prototype.indexOf]; [None] stands for -1. *)
Fixpoint indexOf (x : string) (l : list string) : option nat :=
  match l with
  | [] => None
  | y :: l' => if String.eqb y x then Some 0
               else option_map S (indexOf x l')
  end.

(** Truthiness of a string: only the empty string is falsy. *)
Definition truthy (s : string) : bool :=
  match s with EmptyString => false | _ => true end.

(** Truthiness of a possibly [undefined] string. *)
Definition truthy_opt (o : option string) : bool :=
  match o with None => false | Some s => truthy s end.

(** Property lookup in an object written as an association list;
    [None] stands for [undefined]. *)
Fixpoint get {V : Type} (k : string) (o : list (string * V)) : option V :=
  match o with
  | [] => None
  | (k', v) :: o' => if String.eqb k' k then Some v else get k o'
  end.

(** [Object.keys]. *)
Definition keys {V : Type} (o : list (string * V)) : list string :=
  map fst o.

(** [String.prototype.includes]: [p] occurs somewhere in [s]. *)
Fixpoint str_includes (s p : string) : bool :=
  String.prefix p s
  || match s with
     | EmptyString => false
     | String _ s' => str_includes s' p
     end.

(** The outcome of evaluating code that may throw. *)
Inductive Completion (A : Type) : Type :=
| Normal (a : A)
| Thrown (err : string).
Arguments Normal {A} a.
Arguments Thrown {A} err.

(** Sequencing: a throw ends the evaluation. *)
Definition and_then {A B : Type} (c : Completion A) (k : A -> Completion B)
  : Completion B :=
  match c with
  | Normal a => k a
  | Thrown err => Thrown err
  end.

(** The values [ini.parse] puts in its result: [null], [true] and [false]
    (the unquoted words), strings, arrays ([key[] = ...]) and objects
    (sections, also nested ones). *)
#[warnings="-register-all"] Inductive Value : Type :=
| VNull
| VBool (b : bool)
| VString (s : string)
| VArray (items : list Value)
| VObject (fields : list (string * Value)).

(** Truthiness of a value: [null], [false] and the empty string are
    falsy. *)
Definition truthy_value (v : Value) : bool :=
  match v with
  | VNull => false
  | VBool b => b
  | VString s => truthy s
  | VArray _ => true
  | VObject _ => true
  end.

(** Truthiness of a possibly [undefined] value. *)
Definition truthy_opt_value (o : option Value) : bool :=
  match o with None => false | Some v => truthy_value v end.

(** [v.platform]: reading a property of [null] throws; a boolean, a string
    or an array has no property of that name ([None] is [undefined]). *)
Definition get_platform (v : Value) : Completion (option Value) :=
  match v with
  | VNull => Thrown "TypeError: Cannot read property 'platform' of null"
  | VObject fields => Normal (get "platform" fields)
  | VBool _ | VString _ | VArray _ => Normal None
  end.

(** [v !== s] for a string literal [s]. *)
Definition strict_neq (v : Value) (s : string) : bool :=
  match v with
  | VString s' => negb (String.eqb s' s)
  | _ => true
  end.

(** [v.startsWith(p)]: only a string has the method; on any other value
    the call throws. *)
Definition call_startsWith (v : Value) (p : string) : Completion bool :=
  match v with
  | VString s => Normal (startsWith s p)
  | _ => Thrown "TypeError: platform.startsWith is not a function"
  end.

End JS.
Import JS.

(* ================================================================== *)
(** ** Data *)
(* ================================================================== *)

(** An entry of [PIOTasksProvider.baseTasks]. *)
Record TaskTemplate : Type := mkTemplate {
  name : string;
  args : list string
}.

(** An element of [projectData]. *)
Record ProjectEnv : Type := mkEnv {
  env : string;
  platform : string
}.

Definition ConfSection : Type := list (string * string).
Definition ProjectConf : Type := list (string * ConfSection).

(** What [ini.parse] returns: top-level keys and section names, each with
    its value. *)
Definition RawConf : Type := list (string * Value).

Inductive TaskGroup : Type := Build | Clean | Test.
Inductive TaskPanelKind : Type := Shared | Dedicated | New.

(** A [vscode.Task] as [TaskCreator.create] fills it. *)
Record Task : Type := mkTask {
  definition_type : string;
  definition_args : list string;
  task_name : string;
  source : string;
  execution_process : string;
  execution_args : list string;
  execution_env : list (string * string);
  problemMatchers : string;
  presentationOptions : option TaskPanelKind;
  group : option TaskGroup
}.

(** What the code reads from node and from the operating system. *)
Record Host : Type := mkHost {
  IS_WINDOWS : bool;
  (** [process.env.PATH.split(path.delimiter)] *)
  PATH_split : list string;
  path_join : string -> string -> string;
  isFileSync : string -> bool;
  process_env : list (string * string);
  (** [fs.readFile(p, 'utf-8', ...)]: the data or the error. *)
  readFile : string -> Completion string;
  (** [ini.parse] of the external ini package. *)
  ini_parse : string -> Completion RawConf
}.

(* ================================================================== *)
(** ** class PIOTasksProvider: static members and the platform filter *)
(* ================================================================== *)

Definition AUTO_REFRESH_DELAY : nat := 1000.
Definition ENV_NAME_PREFIX : string := "env:".
Definition title : string := "PlatformIO".

Definition baseTasks : list TaskTemplate :=
  [ mkTemplate "Build" ["run"];
    mkTemplate "Clean" ["run"; "--target"; "clean"];
    mkTemplate "Upload" ["run"; "--target"; "upload"];
    mkTemplate "Upload and Monitor"
               ["run"; "--target"; "upload"; "--target"; "monitor"];
    mkTemplate "Upload using Programmer" ["run"; "--target"; "program"];
    mkTemplate "Upload SPIFFS image" ["run"; "--target"; "uploadfs"];
    mkTemplate "Monitor" ["device"; "monitor"];
    mkTemplate "Test" ["test"];
    mkTemplate "Remote" ["remote"; "run"; "--target"; "upload"];
    mkTemplate "Pre-Debug" ["debug"] ].

(** Lines 146-154 for a platform that is a string; on other values see
    [Untyped.taskCompatibleWithPlatform]. *)
Definition taskCompatibleWithPlatform (task : TaskTemplate) (platform : string)
  : bool :=
  if includes "program" (args task) && negb (String.eqb platform "atmelavr")
  then false
  else if includes "uploadfs" (args task)
          && negb (startsWith platform "espressif")
  then false
  else true.

(* ================================================================== *)
(** ** class TaskCreator *)
(* ================================================================== *)

Record TaskCreator : Type := mkCreator {
  _name : string;
  _args : list string
}.

(** The getter [_coreEnvName]; [None] is [undefined] (also when the index
    after the flag is past the end of the array). *)
Definition _coreEnvName (tc : TaskCreator) : option string :=
  match indexOf "--environment" (_args tc) with
  | Some index => nth_error (_args tc) (index + 1)
  | None => None
  end.

(** The getter [_coreTargetName]; [None] is [undefined]: the first
    argument of an empty array, or the index after a [--target] that ends
    the array. *)
Definition _coreTargetName (tc : TaskCreator) : option string :=
  match nth_error (_args tc) 0 with
  | Some first =>
      if negb (String.eqb first "run")
      then Some first
      else match indexOf "--target" (_args tc) with
           | Some index => nth_error (_args tc) (index + 1)
           | None => Some "build"
           end
  | None => None
  end.

(** The getter [name]: the suffix is added when [coreEnv] is truthy. *)
Definition creator_name (tc : TaskCreator) : string :=
  let coreEnv := _coreEnvName tc in
  match coreEnv with
  | Some e => if truthy e then _name tc ++ " (" ++ e ++ ")" else _name tc
  | None => _name tc
  end.

Definition isBuild (tc : TaskCreator) : bool := startsWith (_name tc) "Build".
Definition isClean (tc : TaskCreator) : bool := startsWith (_name tc) "Clean".
Definition isTest (tc : TaskCreator) : bool := startsWith (_name tc) "Test".

Section WithHost.

Variable h : Host.

(** One turn of the [forEach] over the PATH entries in [create].  The
    [return] in the callback ends that turn only; the variable [pioCmd]
    it assigns is the one the next turn joins with. *)
Definition path_step (pioCmd item : string) : string :=
  if isFileSync h (path_join h item pioCmd)
  then path_join h item pioCmd
  else pioCmd.

(** The value of the local [pioCmd] of [create] when the task is built. *)
Definition pioCmd : string :=
  if IS_WINDOWS h
  then fold_left path_step (PATH_split h) "platformio.exe"
  else "platformio".

Definition create (tc : TaskCreator) : Task :=
  {| definition_type := title;
     definition_args := _args tc;
     task_name := creator_name tc;
     source := title;
     execution_process := pioCmd;
     execution_args := _args tc;
     execution_env := process_env h;
     problemMatchers := "$platformio";
     presentationOptions := Some Dedicated;
     group := if isBuild tc then Some Build
              else if isClean tc then Some Clean
              else if isTest tc then Some Test
              else None |}.

End WithHost.

(* ================================================================== *)
(** ** Effects of [getTasks]: exceptions and the messages shown *)
(* ================================================================== *)

Module Eff.

(** A computation reads and extends the list of messages shown with
    [vscode.window.showErrorMessage] (oldest first) and completes
    normally or by throwing. *)
Definition M (A : Type) : Type := list string -> Completion A * list string.

Definition ret {A : Type} (a : A) : M A := fun w => (Normal a, w).

Definition bind {A B : Type} (m : M A) (k : A -> M B) : M B :=
  fun w => match m w with
           | (Normal a, w') => k a w'
           | (Thrown e, w') => (Thrown e, w')
           end.

(** An expression whose evaluation completes as [c]. *)
Definition lift {A : Type} (c : Completion A) : M A := fun w => (c, w).

(** [try { x = body } catch (err) { return handler(err) } rest(x)]:
    the handler leaves the function, the normal path goes on. *)
Definition try_catch {A B : Type}
           (body : M A) (handler : string -> M B) (rest : A -> M B) : M B :=
  fun w => match body w with
           | (Normal a, w') => rest a w'
           | (Thrown e, w') => handler e w'
           end.

Definition showErrorMessage (msg : string) : M unit :=
  fun w => (Normal tt, w ++ [msg]).

End Eff.

Notation "x <- m ;; k" := (Eff.bind m (fun x => k))
  (at level 61, m at next level, right associativity).

(* ================================================================== *)
(** ** PIOTasksProvider.getTasks *)
(* ================================================================== *)

(** The double quote character of the error message. *)
Definition dquote : string := String (ascii_of_nat 34) EmptyString.

Section GetTasks.

Variable h : Host.
Variable projectDir : string.

(** Lines 173-208 on a configuration whose sections hold strings.  The
    same lines on every value [ini.parse] returns are in [Untyped]; the two
    agree wherever the code does not throw ([getTasks_parsed_typed]), and
    every list [getTasks] returns is a value of [getTasks_parsed]
    ([getTasks_output]). *)

(** One turn of the loop over [Object.keys(projectConf)] (lines 174-183). *)
Definition projectData_step (projectConf : ProjectConf)
           (projectData : list ProjectEnv) (section : string)
  : list ProjectEnv :=
  match get section projectConf with
  | Some sec =>
      match get "platform" sec with
      | Some platform =>
          if negb (truthy platform)
             || negb (startsWith section ENV_NAME_PREFIX)
          then projectData
          else projectData ++
               [ {| env := slice_from (String.length ENV_NAME_PREFIX) section;
                    platform := platform |} ]
      | None => projectData          (* [!undefined] *)
      end
  | None => projectData              (* not reached: section is a key *)
  end.

Definition projectData (projectConf : ProjectConf) : list ProjectEnv :=
  fold_left (projectData_step projectConf) (keys projectConf) [].

(** The callback of the first [baseTasks.forEach] (lines 186-190). *)
Definition push_base (projectData : list ProjectEnv)
           (result : list Task) (task : TaskTemplate) : list Task :=
  if existsb (fun data => taskCompatibleWithPlatform task (platform data))
             projectData
  then result ++ [create h (mkCreator (name task) (args task))]
  else result.

(** The callback of the inner [baseTasks.forEach] (lines 195-199). *)
Definition push_env (data : ProjectEnv)
           (result : list Task) (task : TaskTemplate) : list Task :=
  if taskCompatibleWithPlatform task (platform data)
  then result ++
       [create h (mkCreator (name task)
                            (args task ++ ["--environment"; env data]))]
  else result.

(** Lines 173-208: what [getTasks] does once [projectConf] is parsed. *)
Definition getTasks_parsed (result : list Task) (projectConf : ProjectConf)
  : list Task :=
  let projectData := projectData projectConf in
  (* base tasks *)
  let result := fold_left (push_base projectData) baseTasks result in
  (* project environment tasks *)
  let result :=
    if Nat.ltb 1 (List.length projectData)
    then fold_left (fun result data =>
                      fold_left (push_env data) baseTasks result)
                   projectData result
    else result in
  (* PIO Core tasks *)
  let result := result ++
    [create h (mkCreator "Rebuild IntelliSense Index"
                         ["init"; "--ide"; "vscode"])] in
  let result := result ++
    [create h (mkCreator "Update installed platforms, packages and libraries"
                         ["update"])] in
  let result := result ++
    [create h (mkCreator "Upgrade PlatformIO Core" ["upgrade"])] in
  result.

End GetTasks.

Notation "x <-- m ;; k" := (and_then m (fun x => k))
  (at level 61, m at next level, right associativity).

(** Lines 146-154 and 173-208 on the values [ini.parse] returns. *)
Module Untyped.

(** An element of [projectData]: the platform is the truthy value the
    section holds, a string or not. *)
Record ProjectEnv : Type := mkEnv {
  env : string;
  platform : Value
}.

Definition taskCompatibleWithPlatform (task : TaskTemplate) (platform : Value)
  : Completion bool :=
  if includes "program" (args task) && strict_neq platform "atmelavr"
  then Normal false
  else if includes "uploadfs" (args task)
  then starts <-- call_startsWith platform "espressif" ;;
       if negb starts then Normal false else Normal true
  else Normal true.

(** [projectData.some(data => this.taskCompatibleWithPlatform(task,
    data.platform))]: it stops at the first [true] and at a throw. *)
Fixpoint some_compatible (task : TaskTemplate) (projectData : list ProjectEnv)
  : Completion bool :=
  match projectData with
  | [] => Normal false
  | data :: rest =>
      compatible <-- taskCompatibleWithPlatform task (platform data) ;;
      if compatible then Normal true else some_compatible task rest
  end.

Section WithHost.

Variable h : Host.

(** One turn of the loop over [Object.keys(projectConf)] (lines 174-183);
    a throw in an earlier turn ends the loop. *)
Definition projectData_step (projectConf : RawConf)
           (sofar : Completion (list ProjectEnv)) (section : string)
  : Completion (list ProjectEnv) :=
  projectData <-- sofar ;;
  match get section projectConf with
  | Some value =>
      platform <-- get_platform value ;;
      match platform with
      | Some platform =>
          if negb (truthy_value platform)
             || negb (startsWith section ENV_NAME_PREFIX)
          then Normal projectData
          else Normal
                 (projectData ++
                  [ {| env := slice_from (String.length ENV_NAME_PREFIX)
                                         section;
                       platform := platform |} ])
      | None => Normal projectData          (* [!undefined] *)
      end
  | None =>                                 (* not reached: section is a key *)
      Thrown "TypeError: Cannot read property 'platform' of undefined"
  end.

Definition projectData (projectConf : RawConf)
  : Completion (list ProjectEnv) :=
  fold_left (projectData_step projectConf) (keys projectConf) (Normal []).

(** The callback of the first [baseTasks.forEach] (lines 186-190). *)
Definition push_base (projectData : list ProjectEnv)
           (sofar : Completion (list Task)) (task : TaskTemplate)
  : Completion (list Task) :=
  result <-- sofar ;;
  some <-- some_compatible task projectData ;;
  if some
  then Normal (result ++ [create h (mkCreator (name task) (args task))])
  else Normal result.

(** The callback of the inner [baseTasks.forEach] (lines 195-199). *)
Definition push_env (data : ProjectEnv)
           (sofar : Completion (list Task)) (task : TaskTemplate)
  : Completion (list Task) :=
  result <-- sofar ;;
  compatible <-- taskCompatibleWithPlatform task (platform data) ;;
  if compatible
  then Normal
         (result ++
          [create h (mkCreator (name task)
                               (args task ++ ["--environment"; env data]))])
  else Normal result.

(** Lines 173-208: what [getTasks] does once [projectConf] is parsed. *)
Definition getTasks_parsed (result : list Task) (projectConf : RawConf)
  : Completion (list Task) :=
  projectData <-- projectData projectConf ;;
  (* base tasks *)
  result <-- fold_left (push_base projectData) baseTasks (Normal result) ;;
  (* project environment tasks *)
  result <--
    (if Nat.ltb 1 (List.length projectData)
     then fold_left (fun sofar data =>
                       fold_left (push_env data) baseTasks sofar)
                    projectData (Normal result)
     else Normal result) ;;
  (* PIO Core tasks *)
  let result := result ++
    [create h (mkCreator "Rebuild IntelliSense Index"
                         ["init"; "--ide"; "vscode"])] in
  let result := result ++
    [create h (mkCreator "Update installed platforms, packages and libraries"
                         ["update"])] in
  let result := result ++
    [create h (mkCreator "Upgrade PlatformIO Core" ["upgrade"])] in
  Normal result.

End WithHost.

End Untyped.

Section GetTasksAsync.

Variable h : Host.
Variable projectDir : string.

Definition parse_error_message : string :=
  "Could not parse " ++ dquote ++ "platformio.ini" ++ dquote
    ++ " file in " ++ projectDir.

(** Lines 156-209.  The try block holds the read and the parse only: what
    the rest throws leaves [getTasks] as it is, with no message shown. *)
Definition getTasks : Eff.M (list Task) :=
  let result := [] in
  Eff.try_catch
    (content <- Eff.lift (readFile h (path_join h projectDir "platformio.ini")) ;;
     Eff.lift (ini_parse h content))
    (fun err =>
       _ <- Eff.showErrorMessage parse_error_message ;;
       Eff.ret result)
    (fun projectConf =>
       Eff.lift (Untyped.getTasks_parsed h result projectConf)).

End GetTasksAsync.

(* ================================================================== *)
(** ** PIOTasksProvider.removeStaticTasks *)
(* ================================================================== *)

(** What [removeStaticTasks] asks of the host, in order. *)
Inductive Action : Type :=
| Unlink (p : string)            (* fs.unlink(p) *)
| ConsoleError (err : string).   (* console.error(err) *)

Section RemoveStaticTasks.

Variable h : Host.
Variable projectDir : string.

(** [fs.unlink]: it returns or throws. *)
Variable unlink : string -> Completion unit.

(** [path.join(this.projectDir, '.vscode', 'tasks.json')], joined one
    segment after the other. *)
Definition manifestPath : string :=
  path_join h (path_join h projectDir ".vscode") "tasks.json".

Definition LEGACY_SENTINEL : string := "PlatformIO: Upload SPIFFS image".

(** Lines 81-101.  The file system is the one of [h] for the whole run
    (nothing else writes between the check and the read). *)
Definition removeStaticTasks : list Action :=
  if negb (isFileSync h manifestPath)
  then []
  else
    let content := match readFile h manifestPath with
                   | Normal data => data
                   | Thrown _ => ""
                   end in
    if negb (str_includes content LEGACY_SENTINEL)
    then []
    else match unlink manifestPath with
         | Normal _ => [Unlink manifestPath]
         | Thrown err => [Unlink manifestPath; ConsoleError err]
         end.

End RemoveStaticTasks.

(* ================================================================== *)
(** ** The task list as the specification words it *)
(* ================================================================== *)

Module Spec.

(** Step 1: one descriptor per section whose name starts with the
    prefix and which declares a non-empty platform, in section order. *)
Definition environments (conf : ProjectConf) : list ProjectEnv :=
  flat_map (fun entry : string * ConfSection =>
              let (section, sec) := entry in
              match get "platform" sec with
              | Some p =>
                  if truthy p && startsWith section ENV_NAME_PREFIX
                  then [ {| env := slice_from 4 section; platform := p |} ]
                  else []
              | None => []
              end) conf.

Section Lists.
Variable h : Host.

Definition base_task (t : TaskTemplate) : Task :=
  create h (mkCreator (name t) (args t)).

Definition env_task (e : ProjectEnv) (t : TaskTemplate) : Task :=
  create h (mkCreator (name t) (args t ++ ["--environment"; env e])).

(** Step 3: catalog order, a template kept iff some environment is
    compatible with it. *)
Definition base_tasks (envs : list ProjectEnv) : list Task :=
  map base_task
      (filter (fun t => existsb (fun e => taskCompatibleWithPlatform
                                            t (platform e)) envs)
              baseTasks).

(** Step 4: only with more than one environment; grouped by
    environment, catalog order within a group. *)
Definition env_tasks (envs : list ProjectEnv) : list Task :=
  if Nat.ltb 1 (List.length envs)
  then flat_map (fun e =>
                   map (env_task e)
                       (filter (fun t => taskCompatibleWithPlatform
                                           t (platform e))
                               baseTasks))
                envs
  else [].

(** Step 5: the three fixed utility tasks. *)
Definition core_tasks : list Task :=
  [ create h (mkCreator "Rebuild IntelliSense Index"
                        ["init"; "--ide"; "vscode"]);
    create h (mkCreator "Update installed platforms, packages and libraries"
                        ["update"]);
    create h (mkCreator "Upgrade PlatformIO Core" ["upgrade"]) ].

Definition generate (conf : ProjectConf) : list Task :=
  base_tasks (environments conf)
    ++ env_tasks (environments conf)
    ++ core_tasks.

(** Design note on the executable: the first directory of the search
    path that contains the candidate, or the default. *)
Definition resolve (dirs : list string) (candidate default : string)
  : string :=
  match find (fun d => isFileSync h (path_join h d candidate)) dirs with
  | Some d => path_join h d candidate
  | None => default
  end.

Definition executable : string :=
  if IS_WINDOWS h
  then resolve (PATH_split h) "platformio.exe" "platformio.exe"
  else "platformio".

End Lists.

End Spec.

(* ================================================================== *)
(** ** Debounce and lifecycle: the instance and the host as one state *)
(* ================================================================== *)

Module Lifecycle.

Local Open Scope nat_scope.

(** What a [Disposable] pushed on [subscriptions] stands for. *)
Inductive ResourceKind : Type :=
| TaskProviderReg      (* registerTaskProvider *)
| FileWatcher          (* createFileSystemWatcher *)
| CreateHandler        (* watcher.onDidCreate *)
| ChangeHandler        (* watcher.onDidChange *)
| DeleteHandler.       (* watcher.onDidDelete *)

Definition kind_eqb (a b : ResourceKind) : bool :=
  match a, b with
  | TaskProviderReg, TaskProviderReg | FileWatcher, FileWatcher
  | CreateHandler, CreateHandler | ChangeHandler, ChangeHandler
  | DeleteHandler, DeleteHandler => true
  | _, _ => false
  end.

Record Resource : Type := mkResource {
  rid : nat;
  kind : ResourceKind
}.

(** Fields of the instance ([subscriptions], [_refreshTimeout]) and the
    part of the host they act on: the clock in milliseconds, the pending
    timeouts (identifier and time of firing, all with callback
    [refresh]), the registrations the host holds, and whether
    [createFileSystemWatcher] throws.  [refreshes] counts the runs of
    [refresh]. *)
Record State : Type := mkState {
  subscriptions : list Resource;
  _refreshTimeout : option nat;
  now : nat;
  next_id : nat;
  timers : list (nat * nat);
  live : list Resource;
  watcher_throws : bool;
  refreshes : nat
}.

Definition set_subscriptions (l : list Resource) (s : State) : State :=
  mkState l (_refreshTimeout s) (now s) (next_id s) (timers s) (live s)
          (watcher_throws s) (refreshes s).

Definition set_live (l : list Resource) (s : State) : State :=
  mkState (subscriptions s) (_refreshTimeout s) (now s) (next_id s)
          (timers s) l (watcher_throws s) (refreshes s).

Definition set_timers (l : list (nat * nat)) (s : State) : State :=
  mkState (subscriptions s) (_refreshTimeout s) (now s) (next_id s)
          l (live s) (watcher_throws s) (refreshes s).

(** [subscription.dispose()]: the host drops that registration. *)
Definition dispose_one (s : State) (subscription : Resource) : State :=
  set_live (filter (fun r => negb (rid r =? rid subscription)) (live s)) s.

Definition dispose (s : State) : State :=
  set_subscriptions [] (fold_left dispose_one (subscriptions s) s).

Definition clearTimeout (id : nat) (s : State) : State :=
  set_timers (filter (fun t => negb (fst t =? id)) (timers s)) s.

(** [setTimeout(this.refresh.bind(this), delay)]: the new identifier
    and the state. *)
Definition setTimeout (delay : nat) (s : State) : nat * State :=
  (next_id s,
   mkState (subscriptions s) (_refreshTimeout s) (now s) (S (next_id s))
           (timers s ++ [(next_id s, now s + delay)]) (live s)
           (watcher_throws s) (refreshes s)).

Definition requestRefresh (s : State) : State :=
  let s1 := match _refreshTimeout s with
            | Some id => clearTimeout id s
            | None => s
            end in
  let (id, s2) := setTimeout AUTO_REFRESH_DELAY s1 in
  mkState (subscriptions s2) (Some id) (now s2) (next_id s2) (timers s2)
          (live s2) (watcher_throws s2) (refreshes s2).

(** A registration call of the host followed by
    [this.subscriptions.push]. *)
Definition register_push (k : ResourceKind) (s : State) : State :=
  let r := mkResource (next_id s) k in
  mkState (subscriptions s ++ [r]) (_refreshTimeout s) (now s)
          (S (next_id s)) (timers s) (live s ++ [r])
          (watcher_throws s) (refreshes s).

Definition addProjectConfigWatcher (s : State) : State :=
  if watcher_throws s
  then s                                   (* caught: console.error *)
  else register_push DeleteHandler
         (register_push ChangeHandler
            (register_push CreateHandler
               (register_push FileWatcher s))).

Definition refresh (s : State) : State :=
  let s := dispose s in
  let s := register_push TaskProviderReg s in
  let s := addProjectConfigWatcher s in
  mkState (subscriptions s) (_refreshTimeout s) (now s) (next_id s)
          (timers s) (live s) (watcher_throws s) (S (refreshes s)).

(** The constructor at time [t0]; [removeStaticTasks] only touches the
    legacy manifest on disk and is left out here (it is modelled on its
    own, above). *)
Definition construct (t0 : nat) (throws : bool) : State :=
  requestRefresh (mkState [] None t0 1 [] [] throws 0).

Inductive Event : Type :=
| FsCreate               (* platformio.ini created *)
| FsChange               (* platformio.ini changed *)
| FsDelete               (* platformio.ini deleted *)
| Elapse (d : nat).      (* d milliseconds pass *)

Definition handler_live (k : ResourceKind) (s : State) : bool :=
  existsb (fun r => kind_eqb (kind r) k) (live s).

(** The clock moves to [t]; every timeout due by then fires, in the
    order of scheduling, and is no longer pending. *)
Definition advance (t : nat) (s : State) : State :=
  let due := filter (fun x => snd x <=? t) (timers s) in
  let s1 := mkState (subscriptions s) (_refreshTimeout s) t (next_id s)
                    (filter (fun x => negb (snd x <=? t)) (timers s))
                    (live s) (watcher_throws s) (refreshes s) in
  fold_left (fun s _ => refresh s) due s1.

(** The host delivers a file event to the handler registered for it,
    when that registration is live. *)
Definition step (s : State) (e : Event) : State :=
  match e with
  | FsCreate => if handler_live CreateHandler s then requestRefresh s else s
  | FsChange => if handler_live ChangeHandler s then requestRefresh s else s
  | FsDelete => if handler_live DeleteHandler s then dispose s else s
  | Elapse d => advance (now s + d) s
  end.

Definition run (evs : list Event) (s : State) : State :=
  fold_left step evs s.

(** [N = 1 + length gaps] calls of [requestRefresh], the k-th gap
    passing between call k and call k+1. *)
Fixpoint burst (gaps : list nat) (s : State) : State :=
  match gaps with
  | [] => s
  | d :: gaps' => burst gaps' (requestRefresh (step s (Elapse d)))
  end.

(** The only pending timeout, if any, is the one in [_refreshTimeout]. *)
Definition timers_ok (s : State) : Prop :=
  timers s = [] \/
  exists id t, timers s = [(id, t)] /\ _refreshTimeout s = Some id.

(** The host holds exactly the registrations on [subscriptions]. *)
Definition wf (s : State) : Prop :=
  live s = subscriptions s /\ timers_ok s.

(** Exactly one timeout is pending, it is the one in [_refreshTimeout]
    and it is due one delay from now: the state just after
    [requestRefresh]. *)
Definition pending (s : State) : Prop :=
  exists id, timers s = [(id, now s + AUTO_REFRESH_DELAY)] /\
             _refreshTimeout s = Some id.

(** The kinds of the registrations the host holds, oldest first. *)
Definition registered (s : State) : list ResourceKind := map kind (live s).

(** What [refresh] leaves registered: the provider alone when the watcher
    could not be created, else the provider, the watcher and its three
    handlers. *)
Definition provider_only : list ResourceKind := [TaskProviderReg].
Definition provider_and_watcher : list ResourceKind :=
  [TaskProviderReg; FileWatcher; CreateHandler; ChangeHandler; DeleteHandler].

(** The invariant of the registrations: the host holds what is on
    [subscriptions], which is nothing or what the last [refresh] made. *)
Definition tidy (s : State) : Prop :=
  wf s /\
  (registered s = [] \/
   registered s =
   if watcher_throws s then provider_only else provider_and_watcher).

(** Create and change events among [evs]. *)
Fixpoint count_triggers (evs : list Event) : nat :=
  match evs with
  | [] => 0
  | FsCreate :: evs' | FsChange :: evs' => S (count_triggers evs')
  | _ :: evs' => count_triggers evs'
  end.

End Lifecycle.

(* ================================================================== *)
(** ** Auxiliary definitions of the proofs *)
(* ================================================================== *)

(** The turn of the section loop, as the list it appends. *)
Definition env_of_key (conf : ProjectConf) (section : string)
  : list ProjectEnv :=
  match get section conf with
  | Some sec =>
      match get "platform" sec with
      | Some p => if truthy p && startsWith section ENV_NAME_PREFIX
                  then [ {| env := slice_from 4 section; platform := p |} ]
                  else []
      | None => []
      end
  | None => []
  end.

(** What [getTasks] reads of a top-level value: the platform of a
    section, when it is a string. *)
Definition typed_section (v : Value) : ConfSection :=
  match v with
  | VObject fields =>
      match get "platform" fields with
      | Some (VString p) => [("platform", p)]
      | _ => []
      end
  | _ => []
  end.

(** A parsed configuration read as sections of strings. *)
Definition typed (raw : RawConf) : ProjectConf :=
  map (fun entry => (fst entry, typed_section (snd entry))) raw.

(** Sections of strings as [ini.parse] returns them. *)
Definition untyped (conf : ProjectConf) : RawConf :=
  map (fun entry =>
         (fst entry,
          VObject (map (fun kv => (fst kv, VString (snd kv))) (snd entry))))
      conf.

Definition is_string (v : Value) : bool :=
  match v with VString _ => true | _ => false end.

(** An entry [getTasks] gets through: not [null], and if it is a section
    named [env:...] with a truthy platform, that platform is a string. *)
Definition entry_ok (entry : string * Value) : bool :=
  match snd entry with
  | VNull => false
  | VObject fields =>
      match get "platform" fields with
      | Some p =>
          negb (truthy_value p && startsWith (fst entry) ENV_NAME_PREFIX)
          || is_string p
      | None => true
      end
  | _ => true
  end.

Definition well_typed (raw : RawConf) : bool := forallb entry_ok raw.

(** What the turn of the section loop for [section] appends, on values. *)
Definition raw_env_of_key (raw : RawConf) (section : string)
  : list Untyped.ProjectEnv :=
  match get section raw with
  | Some (VObject fields) =>
      match get "platform" fields with
      | Some p => if truthy_value p && startsWith section ENV_NAME_PREFIX
                  then [Untyped.mkEnv (slice_from 4 section) p]
                  else []
      | None => []
      end
  | _ => []
  end.

(** An environment of strings among the values. *)
Definition inject_env (e : ProjectEnv) : Untyped.ProjectEnv :=
  Untyped.mkEnv (env e) (VString (platform e)).


(** Section 4.2 step 7 of the specification: the group read off a display
    name by prefix. *)
Definition group_of_display_name (display : string) : option TaskGroup :=
  if startsWith display "Build" then Some Build
  else if startsWith display "Clean" then Some Clean
  else if startsWith display "Test" then Some Test
  else None.

(** Equality of tasks is decidable: occurrences in the output can be
    counted. *)
Definition Task_eq_dec (a b : Task) : {a = b} + {a <> b}.
Proof.
  assert (forall x y : TaskGroup, {x = y} + {x <> y}) by decide equality.
  assert (forall x y : TaskPanelKind, {x = y} + {x <> y}) by decide equality.
  assert (forall x y : string * string, {x = y} + {x <> y})
    by (decide equality; apply string_dec).
  decide equality;
    try apply string_dec;
    try (apply list_eq_dec; first [apply string_dec | assumption]);
    decide equality.
Defined.

(* ================================================================== *)
(** ** Concrete hosts and configurations used in the examples *)
(* ================================================================== *)

Module Sample.

(** [[env:uno] platform = atmelavr] and [[env:esp] platform = espressif32],
    the example of the specification. *)
Definition conf_uno_esp : ProjectConf :=
  [ ("env:uno", [("platform", "atmelavr"); ("board", "uno")]);
    ("env:esp", [("platform", "espressif32")]) ].

Definition conf_uno : ProjectConf :=
  [ ("platformio", [("src_dir", "src")]);
    ("env:uno", [("platform", "atmelavr"); ("board", "uno")]) ].

(** No section is an environment: one lacks the prefix, one the
    platform, one has an empty platform. *)
Definition conf_no_env : ProjectConf :=
  [ ("platformio", [("platform", "atmelavr")]);
    ("env:a", [("board", "uno")]);
    ("env:b", [("platform", "")]) ].

(** A section named by the bare prefix: its environment name is empty. *)
Definition conf_empty_name : ProjectConf :=
  [ ("env:", [("platform", "atmelavr")]);
    ("env:uno", [("platform", "atmelavr")]) ].

(** A POSIX host on which [platformio.ini] reads and parses as [raw]. *)
Definition posix_raw (raw : RawConf) : Host :=
  {| IS_WINDOWS := false;
     PATH_split := ["/usr/local/bin"; "/usr/bin"];
     path_join := fun d f => (d ++ "/" ++ f)%string;
     isFileSync := fun p => String.eqb p "/usr/local/bin/platformio";
     process_env := [("HOME", "/home/dev")];
     readFile := fun _ => Normal "[env:uno]";
     ini_parse := fun _ => Normal raw |}.

(** A POSIX host on which [platformio.ini] reads and parses as the
    sections of strings [conf]. *)
Definition posix (conf : ProjectConf) : Host := posix_raw (untyped conf).

(** The file [debug = null]: one top-level key whose value is [null]. *)
Definition raw_null : RawConf := [("debug", VNull)].

(** The file [[env:x]] followed by a bare [platform] line: the platform is
    [true]. *)
Definition raw_boolean : RawConf :=
  [("env:x", VObject [("platform", VBool true)])].

(** Two environments, the second with a boolean platform. *)
Definition raw_uno_boolean : RawConf :=
  [ ("env:uno", VObject [("platform", VString "atmelavr")]);
    ("env:x", VObject [("platform", VBool true)]) ].

(** One environment and a top-level [null]. *)
Definition raw_uno_null : RawConf :=
  [ ("env:uno", VObject [("platform", VString "atmelavr")]);
    ("debug", VNull) ].

(** Values that do no harm: a top-level string and boolean, a section with
    an array and a boolean, a section whose falsy platform is [false], and
    one environment. *)
Definition raw_mixed : RawConf :=
  [ ("name", VString "demo");
    ("verbose", VBool true);
    ("platformio", VObject [("extra_configs", VArray [VString "a.ini"]);
                            ("platform", VBool true)]);
    ("env:off", VObject [("platform", VBool false)]);
    ("env:uno", VObject [("platform", VString "atmelavr")]) ].

(** The file is missing. *)
Definition posix_unreadable : Host :=
  {| IS_WINDOWS := false;
     PATH_split := [];
     path_join := fun d f => (d ++ "/" ++ f)%string;
     isFileSync := fun _ => false;
     process_env := [];
     readFile := fun _ => Thrown "ENOENT";
     ini_parse := fun _ => Normal [] |}.

(** The file is there and the parser throws on it. *)
Definition posix_unparseable : Host :=
  {| IS_WINDOWS := false;
     PATH_split := [];
     path_join := fun d f => (d ++ "/" ++ f)%string;
     isFileSync := fun _ => false;
     process_env := [];
     readFile := fun _ => Normal "[";
     ini_parse := fun _ => Thrown "SyntaxError" |}.

(** A Windows host whose PATH is [tools;work] (two relative entries),
    with the files [tools\platformio.exe] and
    [work\tools\platformio.exe]; [work\platformio.exe] does not exist. *)
Definition windows_nested : Host :=
  {| IS_WINDOWS := true;
     PATH_split := ["tools"; "work"];
     path_join := fun d f => (d ++ "\" ++ f)%string;
     isFileSync := fun p => String.eqb p "tools\platformio.exe"
                            || String.eqb p "work\tools\platformio.exe";
     process_env := [("PATH", "tools;work")];
     readFile := fun _ => Normal "";
     ini_parse := fun _ => Normal [] |}.

(** A Windows host with two absolute PATH entries, the executable in
    the second. *)
Definition windows_plain : Host :=
  {| IS_WINDOWS := true;
     PATH_split := ["C:\Windows"; "C:\pio"];
     path_join := fun d f => (d ++ "\" ++ f)%string;
     isFileSync := fun p => String.eqb p "C:\pio\platformio.exe";
     process_env := [("PATH", "C:\Windows;C:\pio")];
     readFile := fun _ => Normal "";
     ini_parse := fun _ => Normal [] |}.

(** A project whose [.vscode/tasks.json] was written by an old version;
    [unlink_ok] deletes, [unlink_throws] throws. *)
Definition posix_legacy : Host :=
  {| IS_WINDOWS := false;
     PATH_split := [];
     path_join := fun d f => (d ++ "/" ++ f)%string;
     isFileSync := fun p => String.eqb p "/proj/.vscode/tasks.json";
     process_env := [];
     readFile := fun _ =>
       Normal "taskName: PlatformIO: Upload SPIFFS image, args: [run]";
     ini_parse := fun _ => Normal [] |}.

Definition unlink_ok : string -> Completion unit := fun _ => Normal tt.
Definition unlink_throws : string -> Completion unit :=
  fun _ => Thrown "EPERM".

End Sample.

(* ================================================================== *)
(** * Properties *)
(* ================================================================== *)

(** ** Library functions *)

Lemma includes_In (x : string) (l : list string) :
  includes x l = true <-> In x l.
Proof.
  unfold includes. rewrite existsb_exists. split.
  - intros [y [Hy He]]. apply String.eqb_eq in He. now subst.
  - intros Hx. exists x. split; [assumption | apply String.eqb_refl].
Qed.

Lemma includes_false (x : string) (l : list string) :
  includes x l = false <-> ~ In x l.
Proof.
  rewrite <- includes_In. destruct (includes x l); split; congruence.
Qed.

Lemma includes_app (x : string) (l l' : list string) :
  includes x (l ++ l') = includes x l || includes x l'.
Proof. unfold includes. apply existsb_app. Qed.

Lemma get_In {V : Type} (k : string) (o : list (string * V)) (v : V) :
  get k o = Some v -> In (k, v) o.
Proof.
  induction o as [|[k' v'] o IH]; simpl; [discriminate|].
  destruct (String.eqb k' k) eqn:E.
  - intros [= ->]. apply String.eqb_eq in E. subst. now left.
  - intros H. right. now apply IH.
Qed.

Lemma get_key {V : Type} (k : string) (o : list (string * V)) :
  In k (keys o) -> exists v, get k o = Some v.
Proof.
  induction o as [|[k' v'] o IH]; simpl; [contradiction|].
  intros [->|H].
  - rewrite String.eqb_refl. now exists v'.
  - destruct (String.eqb k' k); [now exists v' | now apply IH].
Qed.

Lemma get_NoDup {V : Type} (k : string) (v : V) (o : list (string * V)) :
  NoDup (keys o) -> In (k, v) o -> get k o = Some v.
Proof.
  induction o as [|[k' v'] o IH]; simpl; [contradiction|].
  intros Hnd [[= -> ->]|Hin].
  - now rewrite String.eqb_refl.
  - inversion Hnd as [|? ? Hnotin Hnd']; subst.
    destruct (String.eqb k' k) eqn:E.
    + apply String.eqb_eq in E. subst. exfalso. apply Hnotin.
      unfold keys. change k with (fst (k, v)). now apply in_map.
    + now apply IH.
Qed.

Lemma truthy_nonempty (s : string) : truthy s = true <-> s <> "".
Proof. destruct s; simpl; split; congruence. Qed.

Lemma app_inj_pair {A : Type} (l l' : list A) (a b a' b' : A) :
  l ++ [a; b] = l' ++ [a'; b'] -> l = l' /\ a = a' /\ b = b'.
Proof.
  intros H.
  change (l ++ [a; b]) with (l ++ [a] ++ [b]) in H.
  change (l' ++ [a'; b']) with (l' ++ [a'] ++ [b']) in H.
  rewrite !app_assoc in H.
  apply app_inj_tail in H. destruct H as [H ->].
  apply app_inj_tail in H. destruct H as [-> ->]. auto.
Qed.

(** ** The loops of [getTasks] as list expressions *)

Section Loops.

Variable h : Host.

Lemma fold_push_base (pd : list ProjectEnv) (l : list TaskTemplate)
      (acc : list Task) :
  fold_left (push_base h pd) l acc =
  acc ++ map (Spec.base_task h)
             (filter (fun t => existsb (fun e => taskCompatibleWithPlatform
                                                   t (platform e)) pd) l).
Proof.
  revert acc. induction l as [|t l IH]; intros acc; simpl.
  - now rewrite app_nil_r.
  - rewrite IH. unfold push_base.
    destruct (existsb _ pd); simpl; [|reflexivity].
    now rewrite <- app_assoc.
Qed.

Lemma fold_push_env (data : ProjectEnv) (l : list TaskTemplate)
      (acc : list Task) :
  fold_left (push_env h data) l acc =
  acc ++ map (Spec.env_task h data)
             (filter (fun t => taskCompatibleWithPlatform t (platform data))
                     l).
Proof.
  revert acc. induction l as [|t l IH]; intros acc; simpl.
  - now rewrite app_nil_r.
  - rewrite IH. unfold push_env.
    destruct (taskCompatibleWithPlatform t (platform data)); simpl;
      [|reflexivity].
    now rewrite <- app_assoc.
Qed.

Lemma fold_env_loop (pd : list ProjectEnv) (acc : list Task) :
  fold_left (fun result data => fold_left (push_env h data) baseTasks result)
            pd acc =
  acc ++ flat_map (fun e => map (Spec.env_task h e)
                                (filter (fun t => taskCompatibleWithPlatform
                                                    t (platform e))
                                        baseTasks)) pd.
Proof.
  revert acc. induction pd as [|e pd IH]; intros acc.
  - simpl. now rewrite app_nil_r.
  - cbn [fold_left flat_map]. rewrite IH, fold_push_env.
    now rewrite <- app_assoc.
Qed.

(** The source's three loops and three pushes build the base tasks,
    then the environment tasks, then the core tasks. *)
Lemma getTasks_parsed_shape (conf : ProjectConf) :
  getTasks_parsed h [] conf =
  Spec.base_tasks h (projectData conf)
    ++ Spec.env_tasks h (projectData conf)
    ++ Spec.core_tasks h.
Proof.
  unfold getTasks_parsed, Spec.base_tasks, Spec.env_tasks, Spec.core_tasks.
  rewrite fold_push_base. cbn [app].
  destruct (Nat.ltb 1 (length (projectData conf))).
  - rewrite fold_env_loop. now rewrite <- !app_assoc.
  - now rewrite <- !app_assoc.
Qed.

End Loops.

Lemma projectData_step_app (conf : ProjectConf) (acc : list ProjectEnv)
      (section : string) :
  projectData_step conf acc section = acc ++ env_of_key conf section.
Proof.
  unfold projectData_step, env_of_key.
  destruct (get section conf) as [sec|]; [|now rewrite app_nil_r].
  destruct (get "platform" sec) as [p|]; [|now rewrite app_nil_r].
  destruct (truthy p), (startsWith section ENV_NAME_PREFIX); simpl;
    now rewrite ?app_nil_r.
Qed.

Lemma projectData_fold (conf : ProjectConf) (ks : list string)
      (acc : list ProjectEnv) :
  fold_left (projectData_step conf) ks acc =
  acc ++ flat_map (env_of_key conf) ks.
Proof.
  revert acc. induction ks as [|k ks IH]; intros acc; simpl.
  - now rewrite app_nil_r.
  - rewrite IH, projectData_step_app. now rewrite <- app_assoc.
Qed.

Lemma projectData_keys (conf : ProjectConf) :
  projectData conf = flat_map (env_of_key conf) (keys conf).
Proof. unfold projectData. now rewrite projectData_fold. Qed.

(** With each key once, the loop over the keys is the pass over the
    sections of the specification. *)
Lemma projectData_environments (conf : ProjectConf) :
  NoDup (keys conf) -> projectData conf = Spec.environments conf.
Proof.
  intros Hnd. rewrite projectData_keys. unfold Spec.environments.
  assert (Hsub : forall l, incl l conf ->
            flat_map (env_of_key conf) (keys l) =
            flat_map (fun entry : string * ConfSection =>
                let (section, sec) := entry in
                match get "platform" sec with
                | Some p =>
                    if truthy p && startsWith section ENV_NAME_PREFIX
                    then [ {| env := slice_from 4 section; platform := p |} ]
                    else []
                | None => []
                end) l).
  { induction l as [|[k sec] l IH]; intros Hincl; [reflexivity|].
    cbn [keys map flat_map fst]. fold (keys l).
    rewrite IH by (intros x Hx; apply Hincl; now right).
    f_equal. unfold env_of_key.
    rewrite (get_NoDup k sec conf Hnd) by (apply Hincl; now left).
    reflexivity. }
  apply Hsub, incl_refl.
Qed.

(** Every environment the loop finds comes from a section with the
    prefix and a non-empty platform. *)
Lemma projectData_In (conf : ProjectConf) (e : ProjectEnv) :
  In e (projectData conf) ->
  exists section sec,
    In (section, sec) conf /\
    startsWith section ENV_NAME_PREFIX = true /\
    get "platform" sec = Some (platform e) /\
    platform e <> "" /\
    env e = slice_from 4 section.
Proof.
  rewrite projectData_keys, in_flat_map.
  intros [k [Hk He]]. unfold env_of_key in He.
  destruct (get k conf) as [sec|] eqn:Hget; [|contradiction].
  destruct (get "platform" sec) as [p|] eqn:Hp; [|contradiction].
  destruct (truthy p) eqn:Ht; [|contradiction].
  destruct (startsWith k ENV_NAME_PREFIX) eqn:Hs; [|contradiction].
  destruct He as [<-|[]]. exists k, sec. simpl.
  repeat split; auto using get_In. now apply truthy_nonempty.
Qed.

(** ** The code on values and on sections of strings *)

Lemma compatible_string (task : TaskTemplate) (p : string) :
  Untyped.taskCompatibleWithPlatform task (VString p) =
  Normal (taskCompatibleWithPlatform task p).
Proof.
  unfold Untyped.taskCompatibleWithPlatform, taskCompatibleWithPlatform.
  cbn [strict_neq call_startsWith and_then].
  destruct (includes "program" (args task) && negb (String.eqb p "atmelavr"));
    [reflexivity|].
  destruct (includes "uploadfs" (args task)); [|reflexivity].
  cbn [andb]. destruct (negb (startsWith p "espressif")); reflexivity.
Qed.

Lemma some_compatible_strings (task : TaskTemplate) (pd : list ProjectEnv) :
  Untyped.some_compatible task (map inject_env pd) =
  Normal (existsb (fun data => taskCompatibleWithPlatform task (platform data))
                  pd).
Proof.
  induction pd as [|e pd IH]; [reflexivity|].
  cbn [map Untyped.some_compatible existsb inject_env Untyped.platform].
  rewrite compatible_string. cbn [and_then].
  destruct (taskCompatibleWithPlatform task (platform e)); [reflexivity|].
  exact IH.
Qed.

Lemma fold_push_base_strings (h : Host) (pd : list ProjectEnv)
      (l : list TaskTemplate) (acc : list Task) :
  fold_left (Untyped.push_base h (map inject_env pd)) l (Normal acc) =
  Normal (fold_left (push_base h pd) l acc).
Proof.
  revert acc. induction l as [|t l IH]; intros acc; [reflexivity|].
  cbn [fold_left]. unfold Untyped.push_base at 2, push_base at 2.
  cbn [and_then]. rewrite some_compatible_strings. cbn [and_then].
  destruct (existsb _ pd); apply IH.
Qed.

Lemma fold_push_env_strings (h : Host) (e : ProjectEnv)
      (l : list TaskTemplate) (acc : list Task) :
  fold_left (Untyped.push_env h (inject_env e)) l (Normal acc) =
  Normal (fold_left (push_env h e) l acc).
Proof.
  revert acc. induction l as [|t l IH]; intros acc; [reflexivity|].
  cbn [fold_left]. unfold Untyped.push_env at 2, push_env at 2.
  cbn [and_then inject_env Untyped.platform Untyped.env].
  rewrite compatible_string. cbn [and_then].
  destruct (taskCompatibleWithPlatform t (platform e)); apply IH.
Qed.

Lemma fold_env_loop_strings (h : Host) (pd : list ProjectEnv)
      (acc : list Task) :
  fold_left (fun sofar data =>
               fold_left (Untyped.push_env h data) baseTasks sofar)
            (map inject_env pd) (Normal acc) =
  Normal (fold_left (fun result data =>
                       fold_left (push_env h data) baseTasks result)
                    pd acc).
Proof.
  revert acc. induction pd as [|e pd IH]; intros acc; [reflexivity|].
  cbn [map fold_left]. rewrite fold_push_env_strings. apply IH.
Qed.

Lemma typed_keys (raw : RawConf) : keys (typed raw) = keys raw.
Proof. unfold keys, typed. rewrite map_map. reflexivity. Qed.

Lemma typed_get (raw : RawConf) (k : string) :
  get k (typed raw) = option_map typed_section (get k raw).
Proof.
  induction raw as [|[k' v] raw IH]; [reflexivity|].
  cbn [typed map get fst snd]. fold (typed raw).
  destruct (String.eqb k' k); [reflexivity | exact IH].
Qed.

Lemma projectData_step_typed (raw : RawConf) (acc : list ProjectEnv)
      (k : string) (v : Value) :
  get k raw = Some v -> entry_ok (k, v) = true ->
  Untyped.projectData_step raw (Normal (map inject_env acc)) k =
  Normal (map inject_env (projectData_step (typed raw) acc k)).
Proof.
  intros Hget Hok.
  unfold Untyped.projectData_step, projectData_step.
  rewrite typed_get, Hget. cbn [and_then option_map].
  unfold entry_ok in Hok. cbn [fst snd] in Hok.
  destruct v as [|b|s|items|fields]; try reflexivity; [discriminate Hok|].
  cbn [get_platform and_then typed_section].
  destruct (get "platform" fields) as [p|]; [|reflexivity].
  destruct p as [|b|s|items|fields']; cbn [truthy_value is_string] in Hok |- *;
    try (destruct (startsWith k ENV_NAME_PREFIX);
         cbn in Hok |- *; try discriminate Hok; reflexivity).
  - destruct b; destruct (startsWith k ENV_NAME_PREFIX);
      cbn in Hok |- *; try discriminate Hok; reflexivity.
  - change (get "platform" [("platform", s)]) with (Some s).
    cbv beta iota. cbn [truthy_value].
    destruct (negb (truthy s) || negb (startsWith k ENV_NAME_PREFIX));
      [reflexivity|].
    rewrite map_app. reflexivity.
Qed.

Lemma projectData_typed (raw : RawConf) :
  well_typed raw = true ->
  Untyped.projectData raw = Normal (map inject_env (projectData (typed raw))).
Proof.
  intros Hok. unfold well_typed in Hok. rewrite forallb_forall in Hok.
  unfold Untyped.projectData, projectData. rewrite typed_keys.
  change (Normal []) with (Normal (map inject_env [])).
  generalize (@nil ProjectEnv) as acc.
  assert (Hkeys : forall k, In k (keys raw) -> In k (keys raw)) by trivial.
  revert Hkeys. generalize (keys raw) at 1 3 4 as ks.
  induction ks as [|k ks IH]; intros Hkeys acc; [reflexivity|].
  cbn [fold_left].
  destruct (get_key k raw (Hkeys k (or_introl eq_refl))) as [v Hget].
  rewrite (projectData_step_typed raw acc k v Hget
             (Hok (k, v) (get_In k raw v Hget))).
  apply IH. intros k' Hk'. apply Hkeys. now right.
Qed.

Lemma getTasks_parsed_typed (h : Host) (raw : RawConf) :
  well_typed raw = true ->
  Untyped.getTasks_parsed h [] raw = Normal (getTasks_parsed h [] (typed raw)).
Proof.
  intros Hok. unfold Untyped.getTasks_parsed, getTasks_parsed.
  rewrite (projectData_typed raw Hok). cbn [and_then].
  rewrite fold_push_base_strings. cbn [and_then].
  rewrite length_map.
  destruct (Nat.ltb 1 (length (projectData (typed raw)))).
  - rewrite fold_env_loop_strings. reflexivity.
  - reflexivity.
Qed.

(** ** [getTasks]: the ways out of the try block *)

Lemma getTasks_parsed_run (h : Host) (dir content : string)
      (raw : RawConf) (w : list string) :
  readFile h (path_join h dir "platformio.ini") = Normal content ->
  ini_parse h content = Normal raw ->
  well_typed raw = true ->
  getTasks h dir w = (Normal (getTasks_parsed h [] (typed raw)), w).
Proof.
  intros Hread Hparse Hok.
  unfold getTasks, Eff.try_catch, Eff.bind, Eff.lift, Eff.ret.
  now rewrite Hread, Hparse, (getTasks_parsed_typed h raw Hok).
Qed.

Lemma getTasks_untyped_run (h : Host) (dir content : string)
      (raw : RawConf) (w : list string) :
  readFile h (path_join h dir "platformio.ini") = Normal content ->
  ini_parse h content = Normal raw ->
  getTasks h dir w = (Untyped.getTasks_parsed h [] raw, w).
Proof.
  intros Hread Hparse.
  unfold getTasks, Eff.try_catch, Eff.bind, Eff.lift, Eff.ret.
  now rewrite Hread, Hparse.
Qed.

(** C6.  When reading [platformio.ini] fails, or the content read does not
    parse, [getTasks] completes normally (no exception escapes), its result
    is the empty list (no task at all is emitted), and exactly one message,
    the parse error message, is added to the messages shown. *)
Theorem getTasks_error_path (h : Host) (dir : string) (w : list string) :
  (exists err, readFile h (path_join h dir "platformio.ini") = Thrown err) \/
  (exists content err,
      readFile h (path_join h dir "platformio.ini") = Normal content /\
      ini_parse h content = Thrown err) ->
  getTasks h dir w = (Normal [], w ++ [parse_error_message dir]).
Proof.
  intros [[err Hread] | [content [err [Hread Hparse]]]];
    unfold getTasks, Eff.try_catch, Eff.bind, Eff.lift, Eff.ret,
      Eff.showErrorMessage.
  - now rewrite Hread.
  - now rewrite Hread, Hparse.
Qed.

Lemma getTasks_error_path_witness :
  getTasks Sample.posix_unreadable "/proj" [] =
    (Normal [], [] ++ [parse_error_message "/proj"]) /\
  getTasks Sample.posix_unparseable "/proj" [] =
    (Normal [], [] ++ [parse_error_message "/proj"]).
Proof.
  split.
  - apply (getTasks_error_path Sample.posix_unreadable "/proj" []).
    left. exists "ENOENT". reflexivity.
  - apply (getTasks_error_path Sample.posix_unparseable "/proj" []).
    right. exists "[", "SyntaxError". split; reflexivity.
Defined.

(** ** No environment *)

Lemma projectData_nil (conf : ProjectConf) :
  (forall section sec, In (section, sec) conf ->
     ~ (startsWith section ENV_NAME_PREFIX = true /\
        exists p, get "platform" sec = Some p /\ p <> "")) ->
  projectData conf = [].
Proof.
  intros Hno. destruct (projectData conf) as [|e pd] eqn:E; [reflexivity|].
  destruct (projectData_In conf e) as [section [sec [Hin [Hs [Hp [Hne _]]]]]].
  - rewrite E. now left.
  - exfalso. apply (Hno section sec Hin). split; [assumption|].
    now exists (platform e).
Qed.

Lemma well_typed_no_environment (raw : RawConf) :
  (forall key, ~ In (key, VNull) raw) ->
  (forall section fields, In (section, VObject fields) raw ->
     ~ (startsWith section ENV_NAME_PREFIX = true /\
        exists p, get "platform" fields = Some p /\ truthy_value p = true)) ->
  well_typed raw = true /\ projectData (typed raw) = [].
Proof.
  intros Hnull Hno. split.
  - apply forallb_forall. intros [k v] Hin. unfold entry_ok. cbn [fst snd].
    destruct v as [|b|s|items|fields]; try reflexivity.
    + now apply Hnull in Hin.
    + destruct (get "platform" fields) as [p|] eqn:Hp; [|reflexivity].
      destruct (truthy_value p) eqn:Ht; [|reflexivity].
      destruct (startsWith k ENV_NAME_PREFIX) eqn:Hs; [|reflexivity].
      exfalso. apply (Hno k fields Hin). eauto.
  - apply projectData_nil. intros section sec Hin [Hs [p [Hp Hne]]].
    unfold typed in Hin. apply in_map_iff in Hin.
    destruct Hin as [[k v] [E Hin]]. cbn [fst snd] in E.
    injection E as -> <-.
    destruct v as [|b|s|items|fields]; try discriminate Hp.
    cbn [typed_section] in Hp.
    destruct (get "platform" fields) as [[|b|s|items|fields']|] eqn:Hf;
      try discriminate Hp.
    cbn in Hp. injection Hp as ->.
    apply (Hno section fields Hin). split; [assumption|].
    exists (VString p). split; [exact Hf|].
    now apply truthy_nonempty.
Qed.

(** C3 (amended).  When no top-level value of the parsed configuration is
    [null] and no section both starts with [env:] and declares a non-empty
    (truthy) platform, [getTasks] returns exactly the three fixed utility
    tasks, named Rebuild IntelliSense Index, Update installed platforms,
    packages and libraries, and Upgrade PlatformIO Core, and shows no
    message. *)
Theorem getTasks_no_environment (h : Host) (dir content : string)
        (raw : RawConf) (w : list string) :
  readFile h (path_join h dir "platformio.ini") = Normal content ->
  ini_parse h content = Normal raw ->
  (forall key, ~ In (key, VNull) raw) ->
  (forall section fields, In (section, VObject fields) raw ->
     ~ (startsWith section ENV_NAME_PREFIX = true /\
        exists p, get "platform" fields = Some p /\ truthy_value p = true)) ->
  getTasks h dir w =
    (Normal [ create h (mkCreator "Rebuild IntelliSense Index"
                                  ["init"; "--ide"; "vscode"]);
              create h (mkCreator
                          "Update installed platforms, packages and libraries"
                          ["update"]);
              create h (mkCreator "Upgrade PlatformIO Core" ["upgrade"]) ],
     w) /\
  map task_name (Spec.core_tasks h) =
    [ "Rebuild IntelliSense Index";
      "Update installed platforms, packages and libraries";
      "Upgrade PlatformIO Core" ].
Proof.
  intros Hread Hparse Hnull Hno. split; [|reflexivity].
  destruct (well_typed_no_environment raw Hnull Hno) as [Hok Hnil].
  rewrite (getTasks_parsed_run h dir content raw w Hread Hparse Hok).
  rewrite getTasks_parsed_shape, Hnil.
  reflexivity.
Qed.

Lemma getTasks_no_environment_witness :
  fst (getTasks (Sample.posix Sample.conf_no_env) "/proj" []) =
    Normal (Spec.core_tasks (Sample.posix Sample.conf_no_env)).
Proof.
  refine (f_equal fst
            (proj1 (getTasks_no_environment
                      (Sample.posix Sample.conf_no_env) "/proj" "[env:uno]"
                      (untyped Sample.conf_no_env) [] eq_refl eq_refl _ _))).
  - intros key Hin. simpl in Hin.
    destruct Hin as [E|[E|[E|[]]]]; discriminate E.
  - intros section fields Hin [Hs [p [Hp Ht]]].
    simpl in Hin.
    destruct Hin as [E|[E|[E|[]]]]; injection E as <- <-;
      try discriminate Hs; try discriminate Hp.
    injection Hp as <-. discriminate Ht.
Defined.

(** C3 as first stated covers every parsed configuration without an
    environment.  The file [debug = null] has none, its one top-level
    value is [null], and [getTasks] throws reading [.platform] of it
    (line 175), after the try block: no list is returned. *)
Lemma getTasks_no_environment_counterexample :
  (exists err,
      getTasks (Sample.posix_raw Sample.raw_null) "/proj" [] =
      (Thrown err, [])) /\
  ~ (forall (h : Host) (dir content : string) (raw : RawConf)
            (w : list string),
        readFile h (path_join h dir "platformio.ini") = Normal content ->
        ini_parse h content = Normal raw ->
        (forall section fields, In (section, VObject fields) raw ->
           ~ (startsWith section ENV_NAME_PREFIX = true /\
              exists p, get "platform" fields = Some p /\
                        truthy_value p = true)) ->
        getTasks h dir w = (Normal (Spec.core_tasks h), w)).
Proof.
  split; [eexists; reflexivity|].
  intros H.
  specialize (H (Sample.posix_raw Sample.raw_null) "/proj" "[env:uno]"
                Sample.raw_null [] eq_refl eq_refl).
  assert (Hfalse : getTasks (Sample.posix_raw Sample.raw_null) "/proj" [] =
                   (Normal (Spec.core_tasks
                              (Sample.posix_raw Sample.raw_null)), [])).
  { apply H. intros section fields Hin. simpl in Hin.
    destruct Hin as [E|[]]. discriminate E. }
  discriminate Hfalse.
Qed.

(** ** Order of the output *)

(** C5 (amended).  For a parsed configuration (each section name once, as
    in any object) with no [null] top-level value and in which every
    non-empty platform of an [env:] section is a string, the list
    [getTasks] returns is, in this order: the base tasks in catalog order, a
    template being kept iff some declared environment is compatible with
    it; then, when more than one environment is declared, the environment
    tasks grouped by environment in the order of the sections, in catalog
    order within a group; then the three core tasks. *)
Theorem getTasks_order (h : Host) (dir content : string)
        (raw : RawConf) (w : list string) :
  NoDup (keys raw) ->
  readFile h (path_join h dir "platformio.ini") = Normal content ->
  ini_parse h content = Normal raw ->
  well_typed raw = true ->
  getTasks h dir w =
    (Normal (Spec.base_tasks h (Spec.environments (typed raw))
               ++ Spec.env_tasks h (Spec.environments (typed raw))
               ++ Spec.core_tasks h), w).
Proof.
  intros Hnd Hread Hparse Hok.
  rewrite (getTasks_parsed_run h dir content raw w Hread Hparse Hok).
  rewrite getTasks_parsed_shape, (projectData_environments (typed raw))
    by now rewrite typed_keys.
  reflexivity.
Qed.

Lemma getTasks_order_witness :
  map task_name
      (Spec.generate (Sample.posix Sample.conf_uno_esp) Sample.conf_uno_esp) =
  [ "Build"; "Clean"; "Upload"; "Upload and Monitor";
    "Upload using Programmer"; "Upload SPIFFS image"; "Monitor"; "Test";
    "Remote"; "Pre-Debug";
    "Build (uno)"; "Clean (uno)"; "Upload (uno)"; "Upload and Monitor (uno)";
    "Upload using Programmer (uno)"; "Monitor (uno)"; "Test (uno)";
    "Remote (uno)"; "Pre-Debug (uno)";
    "Build (esp)"; "Clean (esp)"; "Upload (esp)"; "Upload and Monitor (esp)";
    "Upload SPIFFS image (esp)"; "Monitor (esp)"; "Test (esp)";
    "Remote (esp)"; "Pre-Debug (esp)";
    "Rebuild IntelliSense Index";
    "Update installed platforms, packages and libraries";
    "Upgrade PlatformIO Core" ] /\
  getTasks (Sample.posix Sample.conf_uno_esp) "/proj" [] =
    (Normal (Spec.generate (Sample.posix Sample.conf_uno_esp)
                           Sample.conf_uno_esp), []) /\
  getTasks (Sample.posix_raw Sample.raw_mixed) "/proj" [] =
    (Normal (Spec.generate (Sample.posix_raw Sample.raw_mixed)
                           [("env:uno", [("platform", "atmelavr")])]), []).
Proof.
  split; [reflexivity|]. split.
  - apply (getTasks_order (Sample.posix Sample.conf_uno_esp) "/proj"
                          "[env:uno]" (untyped Sample.conf_uno_esp) []).
    + repeat constructor; simpl; intuition discriminate.
    + reflexivity.
    + reflexivity.
    + reflexivity.
  - apply (getTasks_order (Sample.posix_raw Sample.raw_mixed) "/proj"
                          "[env:uno]" Sample.raw_mixed []).
    + repeat constructor; simpl; intuition discriminate.
    + reflexivity.
    + reflexivity.
    + reflexivity.
Defined.

(** C5 as first stated covers every parsed configuration.  On the file
    [debug = null] (a [null] top-level value, line 175) and on the file
    [[env:x]] with a bare [platform] line (the platform is [true] and has
    no [startsWith], line 150), [getTasks] throws after the try block and
    returns no list. *)
Lemma getTasks_order_counterexample :
  (exists err,
      getTasks (Sample.posix_raw Sample.raw_null) "/proj" [] =
      (Thrown err, [])) /\
  (exists err,
      getTasks (Sample.posix_raw Sample.raw_boolean) "/proj" [] =
      (Thrown err, [])) /\
  ~ (forall (h : Host) (dir content : string) (raw : RawConf)
            (w : list string),
        NoDup (keys raw) ->
        readFile h (path_join h dir "platformio.ini") = Normal content ->
        ini_parse h content = Normal raw ->
        getTasks h dir w =
          (Normal (Spec.base_tasks h (Spec.environments (typed raw))
                     ++ Spec.env_tasks h (Spec.environments (typed raw))
                     ++ Spec.core_tasks h), w)).
Proof.
  split; [eexists; reflexivity|]. split; [eexists; reflexivity|].
  intros H.
  specialize (H (Sample.posix_raw Sample.raw_boolean) "/proj" "[env:uno]"
                Sample.raw_boolean []
                ltac:(repeat constructor; simpl; intuition discriminate)
                eq_refl eq_refl).
  discriminate H.
Qed.

(** ** Facts about the catalog and about [create] *)

Lemma startsWith_spec (s p : string) :
  startsWith s p = true <-> exists rest, s = (p ++ rest)%string.
Proof.
  unfold startsWith. revert s.
  induction p as [|a p IH]; intros s; simpl.
  - split; [intros _; now exists s | now destruct s].
  - destruct s as [|b s].
    + split; [discriminate | intros [rest H]; discriminate H].
    + simpl. destruct (ascii_dec a b) as [->|Hne].
      * rewrite IH. split; intros [rest H]; exists rest.
        -- now rewrite H.
        -- now injection H.
      * split; [discriminate|].
        intros [rest H]. injection H as H1 H2. now symmetry in H1.
Qed.

Lemma catalog_no_environment (t : TaskTemplate) :
  In t baseTasks -> ~ In "--environment" (args t).
Proof.
  intros Hin. apply includes_false.
  assert (H : forallb (fun t => negb (includes "--environment" (args t)))
                      baseTasks = true) by reflexivity.
  rewrite forallb_forall in H. apply negb_true_iff. now apply H.
Qed.

Lemma catalog_args_NoDup : NoDup (map args baseTasks).
Proof. repeat constructor; simpl; intuition discriminate. Qed.


Lemma definition_args_create (h : Host) (tc : TaskCreator) :
  definition_args (create h tc) = _args tc.
Proof. reflexivity. Qed.

Lemma core_args (h : Host) (d : Task) :
  In d (Spec.core_tasks h) ->
  definition_args d = ["init"; "--ide"; "vscode"] \/
  definition_args d = ["update"] \/
  definition_args d = ["upgrade"].
Proof.
  intros [<-|[<-|[<-|[]]]]; simpl; auto.
Qed.

Lemma core_args_not_catalog (h : Host) (d : Task) (t : TaskTemplate) :
  In d (Spec.core_tasks h) -> In t baseTasks -> definition_args d <> args t.
Proof.
  intros Hd Ht E. apply core_args in Hd. rewrite E in Hd.
  simpl in Ht.
  repeat (destruct Ht as [<-|Ht]; [simpl in Hd; intuition discriminate|]).
  contradiction.
Qed.

Lemma core_args_plain (h : Host) (d : Task) (x : string) :
  In d (Spec.core_tasks h) -> In x (definition_args d) ->
  x = "init" \/ x = "--ide" \/ x = "vscode" \/ x = "update" \/ x = "upgrade".
Proof.
  intros Hd Hx. apply core_args in Hd.
  destruct Hd as [E|[E|E]]; rewrite E in Hx; simpl in Hx; intuition auto.
Qed.

(** Where a task of the output comes from. *)
Lemma getTasks_parsed_In (h : Host) (conf : ProjectConf) (d : Task) :
  In d (getTasks_parsed h [] conf) <->
  (exists t, In t baseTasks /\
             existsb (fun e => taskCompatibleWithPlatform t (platform e))
                     (projectData conf) = true /\
             d = Spec.base_task h t) \/
  (2 <= length (projectData conf) /\
   exists e t, In e (projectData conf) /\ In t baseTasks /\
               taskCompatibleWithPlatform t (platform e) = true /\
               d = Spec.env_task h e t) \/
  In d (Spec.core_tasks h).
Proof.
  rewrite getTasks_parsed_shape, !in_app_iff.
  unfold Spec.base_tasks, Spec.env_tasks.
  rewrite in_map_iff.
  assert (Hb : (exists x, Spec.base_task h x = d /\
                  In x (filter (fun t => existsb
                          (fun e => taskCompatibleWithPlatform t (platform e))
                          (projectData conf)) baseTasks)) <->
               (exists t, In t baseTasks /\
                  existsb (fun e => taskCompatibleWithPlatform t (platform e))
                          (projectData conf) = true /\
                  d = Spec.base_task h t)).
  { split.
    - intros [t [<- Ht]]. apply filter_In in Ht. exists t. tauto.
    - intros [t [Ht [Hc ->]]]. exists t. rewrite filter_In. tauto. }
  rewrite Hb. clear Hb.
  apply or_iff_compat_l, or_iff_compat_r.
  destruct (Nat.ltb 1 (length (projectData conf))) eqn:Hlen.
  - apply Nat.ltb_lt in Hlen. rewrite in_flat_map. split.
    + intros [e [He Hd]]. apply in_map_iff in Hd.
      destruct Hd as [t [<- Ht]]. apply filter_In in Ht.
      split; [lia|]. exists e, t. tauto.
    + intros [_ [e [t [He [Ht [Hc ->]]]]]]. exists e. split; [assumption|].
      apply in_map, filter_In. tauto.
  - apply Nat.ltb_ge in Hlen. split; [contradiction|].
    intros [Hlen' _]. lia.
Qed.

(** ** The platform filter *)

Lemma compatible_iff (task : TaskTemplate) (platform : string) :
  taskCompatibleWithPlatform task platform = true <->
  (In "program" (args task) -> platform = "atmelavr") /\
  (In "uploadfs" (args task) ->
   exists rest, platform = ("espressif" ++ rest)%string).
Proof.
  unfold taskCompatibleWithPlatform.
  rewrite <- startsWith_spec, <- !includes_In.
  destruct (includes "program" (args task)),
           (includes "uploadfs" (args task)),
           (startsWith platform "espressif"),
           (String.eqb_spec platform "atmelavr"); simpl;
    (split;
     [ intros H; split; intros; congruence
     | intros [H1 H2]; try reflexivity;
       try specialize (H1 eq_refl); try specialize (H2 eq_refl);
       congruence ]).
Qed.

(** A catalog template carrying [target], whose compatible platforms all
    satisfy [P]: its base task needs an environment with such a platform,
    its task for environment [n] needs [n] to have one. *)
Lemma target_present_only (h : Host) (conf : ProjectConf) (t : TaskTemplate)
      (P : string -> Prop) (target : string) :
  In t baseTasks ->
  In target (args t) ->
  (forall task platform,
      In target (args task) ->
      taskCompatibleWithPlatform task platform = true -> P platform) ->
  (In (create h (mkCreator (name t) (args t))) (getTasks_parsed h [] conf) ->
   exists e, In e (projectData conf) /\ P (platform e)) /\
  (forall n,
      In (create h (mkCreator (name t) (args t ++ ["--environment"; n])))
         (getTasks_parsed h [] conf) ->
      exists e, In e (projectData conf) /\ env e = n /\ P (platform e)).
Proof.
  intros Ht Htarget HP. split.
  - intros Hin. apply getTasks_parsed_In in Hin.
    destruct Hin
      as [[t' [Ht' [Hc E]]] | [[_ [e [t' [He [Ht' [Hc E]]]]]] | Hcore]].
    + apply (f_equal definition_args) in E. simpl in E.
      apply existsb_exists in Hc. destruct Hc as [e [He Hc]].
      exists e. split; [assumption|].
      apply (HP t'); [now rewrite <- E | assumption].
    + apply (f_equal definition_args) in E. simpl in E.
      exfalso. apply (catalog_no_environment t Ht).
      rewrite E. apply in_or_app. right. now left.
    + exfalso. apply (core_args_not_catalog h _ t Hcore Ht). reflexivity.
  - intros n Hin. apply getTasks_parsed_In in Hin.
    destruct Hin
      as [[t' [Ht' [Hc E]]] | [[_ [e [t' [He [Ht' [Hc E]]]]]] | Hcore]].
    + apply (f_equal definition_args) in E. simpl in E.
      exfalso. apply (catalog_no_environment t' Ht').
      rewrite <- E. apply in_or_app. right. now left.
    + apply (f_equal definition_args) in E. simpl in E.
      apply app_inj_pair in E. destruct E as [E [_ En]].
      exists e. repeat split; [assumption | now symmetry |].
      apply (HP t'); [now rewrite <- E | assumption].
    + exfalso.
      assert (Hx : In "--environment"
                      (definition_args
                         (create h (mkCreator (name t)
                            (args t ++ ["--environment"; n]))))).
      { simpl. apply in_or_app. right. now left. }
      apply (core_args_plain h _ _ Hcore) in Hx.
      intuition discriminate.
Qed.

(** C1.  [taskCompatibleWithPlatform] holds of a template and a platform
    string exactly when: the argument list containing [program] forces the
    platform to be [atmelavr], and the argument list containing [uploadfs]
    forces the platform to start with [espressif]; a template with neither
    is compatible with every platform.  Hence, for a catalog template whose
    arguments contain [program], its base task is in the output of
    [getTasks] only if some declared environment has platform [atmelavr],
    and its task for an environment only if that environment has platform
    [atmelavr]; likewise with [uploadfs] and platforms starting with
    [espressif]. *)
Theorem platform_filter :
  (forall task platform,
      taskCompatibleWithPlatform task platform = true <->
      (In "program" (args task) -> platform = "atmelavr") /\
      (In "uploadfs" (args task) ->
       exists rest, platform = ("espressif" ++ rest)%string)) /\
  (forall task platform,
      ~ In "program" (args task) -> ~ In "uploadfs" (args task) ->
      taskCompatibleWithPlatform task platform = true) /\
  (forall h conf t,
      In t baseTasks -> In "program" (args t) ->
      (In (create h (mkCreator (name t) (args t)))
          (getTasks_parsed h [] conf) ->
       exists e, In e (projectData conf) /\ platform e = "atmelavr") /\
      (forall n,
          In (create h (mkCreator (name t)
                                  (args t ++ ["--environment"; n])))
             (getTasks_parsed h [] conf) ->
          exists e, In e (projectData conf) /\ env e = n /\
                    platform e = "atmelavr")) /\
  (forall h conf t,
      In t baseTasks -> In "uploadfs" (args t) ->
      (In (create h (mkCreator (name t) (args t)))
          (getTasks_parsed h [] conf) ->
       exists e, In e (projectData conf) /\
                 startsWith (platform e) "espressif" = true) /\
      (forall n,
          In (create h (mkCreator (name t)
                                  (args t ++ ["--environment"; n])))
             (getTasks_parsed h [] conf) ->
          exists e, In e (projectData conf) /\ env e = n /\
                    startsWith (platform e) "espressif" = true)).
Proof.
  split; [exact compatible_iff|]. split; [|split].
  - intros task platform Hp Hu. apply compatible_iff. tauto.
  - intros h conf t Ht Hp.
    apply (target_present_only h conf t (fun p => p = "atmelavr") "program");
      try assumption.
    intros task platform Hin Hc. apply compatible_iff in Hc. tauto.
  - intros h conf t Ht Hu.
    apply (target_present_only h conf t
             (fun p => startsWith p "espressif" = true) "uploadfs");
      try assumption.
    intros task platform Hin Hc. apply compatible_iff in Hc.
    apply startsWith_spec. tauto.
Qed.

Lemma platform_filter_witness :
  taskCompatibleWithPlatform
    (mkTemplate "Upload SPIFFS image" ["run"; "--target"; "uploadfs"])
    "espressif32" = true /\
  exists e, In e (projectData Sample.conf_uno_esp) /\ env e = "uno" /\
            platform e = "atmelavr".
Proof.
  split.
  - apply (proj1 platform_filter). split.
    + simpl. intuition discriminate.
    + intros _. now exists "32".
  - apply (proj2 (proj1 (proj2 (proj2 platform_filter))
                    (Sample.posix Sample.conf_uno_esp) Sample.conf_uno_esp
                    (mkTemplate "Upload using Programmer"
                                ["run"; "--target"; "program"])
                    ltac:(simpl; tauto) ltac:(simpl; tauto)) "uno").
    apply getTasks_parsed_In. right. left. split; [simpl; lia|].
    exists (mkEnv "uno" "atmelavr"),
           (mkTemplate "Upload using Programmer"
                       ["run"; "--target"; "program"]).
    simpl. tauto.
Defined.

(** The catalog on the platforms of the example: the programmer upload is
    for [atmelavr] only, the SPIFFS upload for [espressif...] only. *)
Example platform_filter_catalog :
  map (fun p => map name
                  (filter (fun t => negb (taskCompatibleWithPlatform t p))
                          baseTasks))
      ["atmelavr"; "espressif32"; "espressif8266"; "ststm32"; "espressi"] =
  [ ["Upload SPIFFS image"];
    ["Upload using Programmer"];
    ["Upload using Programmer"];
    ["Upload using Programmer"; "Upload SPIFFS image"];
    ["Upload using Programmer"; "Upload SPIFFS image"] ].
Proof. reflexivity. Qed.

(** ** Display names *)

Lemma indexOf_absent (x : string) (l : list string) :
  ~ In x l -> indexOf x l = None.
Proof.
  induction l as [|y l IH]; simpl; [reflexivity|].
  intros Hn. destruct (String.eqb_spec y x) as [->|_].
  - exfalso. apply Hn. now left.
  - rewrite IH; [reflexivity | tauto].
Qed.

Lemma indexOf_first (x : string) (l l' : list string) :
  ~ In x l -> indexOf x (l ++ x :: l') = Some (length l).
Proof.
  induction l as [|y l IH]; simpl.
  - now rewrite String.eqb_refl.
  - intros Hn. destruct (String.eqb_spec y x) as [->|_].
    + exfalso. apply Hn. now left.
    + rewrite IH; [reflexivity | tauto].
Qed.

Lemma coreEnvName_plain (nm : string) (l : list string) :
  ~ In "--environment" l -> _coreEnvName (mkCreator nm l) = None.
Proof.
  intros Hn. unfold _coreEnvName. simpl. now rewrite indexOf_absent.
Qed.

Lemma coreEnvName_qualified (nm e : string) (l : list string) :
  ~ In "--environment" l ->
  _coreEnvName (mkCreator nm (l ++ ["--environment"; e])) = Some e.
Proof.
  intros Hn. unfold _coreEnvName. simpl.
  rewrite indexOf_first by assumption.
  rewrite nth_error_app2 by lia.
  replace (length l + 1 - length l) with 1 by lia. reflexivity.
Qed.

Lemma name_plain (h : Host) (nm : string) (l : list string) :
  ~ In "--environment" l -> task_name (create h (mkCreator nm l)) = nm.
Proof.
  intros Hn. simpl. unfold creator_name.
  now rewrite coreEnvName_plain.
Qed.

Lemma name_qualified (h : Host) (nm e : string) (l : list string) :
  ~ In "--environment" l ->
  task_name (create h (mkCreator nm (l ++ ["--environment"; e]))) =
  if truthy e then (nm ++ " (" ++ e ++ ")")%string else nm.
Proof.
  intros Hn. simpl. unfold creator_name.
  now rewrite coreEnvName_qualified.
Qed.

(** C10.  For every template of the catalog, the argument list does not
    contain [--environment], so [_coreEnvName] of its base task is
    undefined and the display name of the base task is the template name,
    with nothing appended.  In the output of [getTasks], every task whose
    arguments do not carry [--environment] is the base task of a catalog
    template, named exactly as the template, or one of the three core
    tasks. *)
Theorem base_task_display_name (h : Host) :
  (forall t, In t baseTasks ->
     includes "--environment" (args t) = false /\
     _coreEnvName (mkCreator (name t) (args t)) = None /\
     task_name (create h (mkCreator (name t) (args t))) = name t) /\
  (forall conf d,
     In d (getTasks_parsed h [] conf) ->
     includes "--environment" (definition_args d) = false ->
     (exists t, In t baseTasks /\
                d = create h (mkCreator (name t) (args t)) /\
                task_name d = name t) \/
     In d (Spec.core_tasks h)).
Proof.
  split.
  - intros t Ht. pose proof (catalog_no_environment t Ht) as Hn.
    repeat split.
    + now apply includes_false.
    + now apply coreEnvName_plain.
    + now apply name_plain.
  - intros conf d Hin Hplain. apply getTasks_parsed_In in Hin.
    destruct Hin
      as [[t [Ht [_ ->]]] | [[_ [e [t [_ [_ [_ ->]]]]]] | Hcore]].
    + left. exists t. repeat split; [assumption|].
      apply name_plain. now apply catalog_no_environment.
    + exfalso. simpl in Hplain. apply includes_false in Hplain.
      apply Hplain, in_or_app. right. now left.
    + now right.
Qed.

Lemma base_task_display_name_witness :
  task_name (create (Sample.posix Sample.conf_uno)
                    (mkCreator "Upload and Monitor"
                       ["run"; "--target"; "upload"; "--target"; "monitor"]))
  = "Upload and Monitor".
Proof.
  refine (proj2 (proj2 (proj1 (base_task_display_name
                                 (Sample.posix Sample.conf_uno))
                              (mkTemplate "Upload and Monitor" _) _))).
  simpl. tauto.
Defined.

(** ** Counting tasks in the output *)

Lemma NoDup_map_filter {A B : Type} (g : A -> B) (f : A -> bool)
      (l : list A) :
  NoDup (map g l) -> NoDup (map g (filter f l)).
Proof.
  induction l as [|a l IH]; simpl; [trivial|].
  intros Hnd. inversion Hnd as [|? ? Hnotin Hnd']; subst.
  destruct (f a); simpl; [|now apply IH].
  constructor; [|now apply IH].
  intros Hin. apply Hnotin. apply in_map_iff in Hin.
  destruct Hin as [x [Hx Hin]]. apply filter_In in Hin.
  rewrite <- Hx. apply in_map. tauto.
Qed.

Lemma base_tasks_NoDup (h : Host) (pd : list ProjectEnv) :
  NoDup (Spec.base_tasks h pd).
Proof.
  unfold Spec.base_tasks.
  apply NoDup_map_inv with (f := definition_args).
  rewrite map_map.
  exact (NoDup_map_filter args _ _ catalog_args_NoDup).
Qed.

Lemma env_group_NoDup (h : Host) (e : ProjectEnv) :
  NoDup (map (Spec.env_task h e)
             (filter (fun t => taskCompatibleWithPlatform t (platform e))
                     baseTasks)).
Proof.
  apply NoDup_map_inv with (f := definition_args).
  rewrite map_map.
  apply NoDup_map_inv
    with (f := fun l : list string => removelast (removelast l)).
  rewrite map_map.
  erewrite map_ext.
  - exact (NoDup_map_filter args _ _ catalog_args_NoDup).
  - intros t. cbn [Spec.env_task create definition_args _args].
    change (args t ++ ["--environment"; env e])
      with (args t ++ ["--environment"] ++ [env e]).
    rewrite app_assoc, removelast_last, removelast_last. reflexivity.
Qed.

Lemma env_tasks_NoDup (h : Host) (pd : list ProjectEnv) :
  NoDup (map env pd) -> NoDup (Spec.env_tasks h pd).
Proof.
  unfold Spec.env_tasks. destruct (Nat.ltb 1 (length pd)); [|constructor].
  induction pd as [|e pd IH]; cbn [flat_map map]; [constructor|].
  intros Hnd. inversion Hnd as [|? ? Hnotin Hnd']; subst.
  apply NoDup_app; [apply env_group_NoDup | now apply IH |].
  intros d Hd Hd'. apply in_map_iff in Hd. destruct Hd as [t [<- _]].
  apply in_flat_map in Hd'. destruct Hd' as [e' [He' Hd']].
  apply in_map_iff in Hd'. destruct Hd' as [t' [E _]].
  apply (f_equal definition_args) in E. simpl in E.
  apply app_inj_pair in E. destruct E as [_ [_ E]].
  apply Hnotin. rewrite <- E. now apply in_map.
Qed.

Lemma base_task_not_env (h : Host) (pd : list ProjectEnv) (t : TaskTemplate) :
  In t baseTasks -> ~ In (Spec.base_task h t) (Spec.env_tasks h pd).
Proof.
  intros Ht Hin. unfold Spec.env_tasks in Hin.
  destruct (Nat.ltb 1 (length pd)); [|contradiction].
  apply in_flat_map in Hin. destruct Hin as [e [_ Hin]].
  apply in_map_iff in Hin. destruct Hin as [t' [E _]].
  apply (f_equal definition_args) in E. simpl in E.
  apply (catalog_no_environment t Ht). rewrite <- E.
  apply in_or_app. right. now left.
Qed.

Lemma base_task_not_core (h : Host) (t : TaskTemplate) :
  In t baseTasks -> ~ In (Spec.base_task h t) (Spec.core_tasks h).
Proof.
  intros Ht Hin. now apply (core_args_not_catalog h _ t Hin Ht).
Qed.

Lemma env_task_not_base (h : Host) (pd : list ProjectEnv)
      (nm n : string) (l : list string) :
  ~ In (create h (mkCreator nm (l ++ ["--environment"; n])))
       (Spec.base_tasks h pd).
Proof.
  intros Hin. unfold Spec.base_tasks in Hin.
  apply in_map_iff in Hin. destruct Hin as [t' [E Ht']].
  apply filter_In in Ht'. destruct Ht' as [Ht' _].
  apply (f_equal definition_args) in E. simpl in E.
  apply (catalog_no_environment t' Ht'). rewrite E.
  apply in_or_app. right. now left.
Qed.

Lemma env_task_not_core (h : Host) (nm n : string) (l : list string) :
  ~ In (create h (mkCreator nm (l ++ ["--environment"; n])))
       (Spec.core_tasks h).
Proof.
  intros Hin.
  assert (Hx : In "--environment"
                  (definition_args
                     (create h (mkCreator nm (l ++ ["--environment"; n]))))).
  { simpl. apply in_or_app. right. now left. }
  apply (core_args_plain h _ _ Hin) in Hx. intuition discriminate.
Qed.

(** ** Environment names are distinct *)

Lemma substring_all (s : string) : String.substring 0 (String.length s) s = s.
Proof. induction s as [|a s IH]; simpl; [reflexivity | now rewrite IH]. Qed.

Lemma prefix_slice (section : string) :
  startsWith section ENV_NAME_PREFIX = true ->
  section = (ENV_NAME_PREFIX ++ slice_from 4 section)%string.
Proof.
  intros Hs. apply startsWith_spec in Hs. destruct Hs as [rest ->].
  unfold slice_from, ENV_NAME_PREFIX. simpl.
  now rewrite Nat.sub_0_r, substring_all.
Qed.

Lemma env_of_key_In (conf : ProjectConf) (k : string) (e : ProjectEnv) :
  In e (env_of_key conf k) ->
  startsWith k ENV_NAME_PREFIX = true /\ env e = slice_from 4 k.
Proof.
  unfold env_of_key.
  destruct (get k conf) as [sec|]; [|contradiction].
  destruct (get "platform" sec) as [p|]; [|contradiction].
  destruct (truthy p); [|contradiction].
  destruct (startsWith k ENV_NAME_PREFIX); [|contradiction].
  intros [<-|[]]. auto.
Qed.

Lemma projectData_env_NoDup (conf : ProjectConf) :
  NoDup (keys conf) -> NoDup (map env (projectData conf)).
Proof.
  rewrite projectData_keys. generalize (keys conf) as ks.
  induction ks as [|k ks IH]; intros Hnd; [constructor|].
  inversion Hnd as [|? ? Hnotin Hnd']; subst.
  cbn [flat_map]. rewrite map_app.
  apply NoDup_app.
  - unfold env_of_key.
    destruct (get k conf) as [sec|]; [|constructor].
    destruct (get "platform" sec) as [p|]; [|constructor].
    destruct (truthy p && startsWith k ENV_NAME_PREFIX);
      repeat constructor. intros [].
  - now apply IH.
  - intros n Hn Hn'.
    apply in_map_iff in Hn. destruct Hn as [e [<- He]].
    apply env_of_key_In in He. destruct He as [Hs He].
    apply in_map_iff in Hn'. destruct Hn' as [e' [E He']].
    apply in_flat_map in He'. destruct He' as [k' [Hk' He']].
    apply env_of_key_In in He'. destruct He' as [Hs' He'].
    apply Hnotin.
    rewrite (prefix_slice k Hs), <- He, <- E, He', <- (prefix_slice k' Hs').
    assumption.
Qed.

(** ** One environment *)

(** The same on a configuration of sections of strings. *)
Lemma single_environment_parsed (h : Host) (conf : ProjectConf)
      (e : ProjectEnv) (t : TaskTemplate) :
  projectData conf = [e] ->
  In t baseTasks ->
  taskCompatibleWithPlatform t (platform e) = true ->
  count_occ Task_eq_dec (getTasks_parsed h [] conf)
            (create h (mkCreator (name t) (args t))) = 1 /\
  (forall d, In d (getTasks_parsed h [] conf) ->
             includes "--environment" (definition_args d) = false) /\
  (forall t' n,
      ~ In (create h (mkCreator (name t')
                                (args t' ++ ["--environment"; n])))
           (getTasks_parsed h [] conf)).
Proof.
  intros Hone Ht Hc.
  assert (Hplain : forall d, In d (getTasks_parsed h [] conf) ->
                     includes "--environment" (definition_args d) = false).
  { intros d Hin. apply getTasks_parsed_In in Hin.
    destruct Hin as [[t' [Ht' [_ ->]]] | [[Hlen _] | Hcore]].
    - apply includes_false. now apply catalog_no_environment.
    - rewrite Hone in Hlen. simpl in Hlen. lia.
    - apply includes_false. intros Hx.
      apply (core_args_plain h _ _ Hcore) in Hx. intuition discriminate. }
  split; [|split; [exact Hplain|]].
  - change (create h (mkCreator (name t) (args t)))
      with (Spec.base_task h t).
    rewrite getTasks_parsed_shape, !count_occ_app.
    rewrite (proj1 (count_occ_not_In Task_eq_dec
                      (Spec.env_tasks h (projectData conf)) _))
      by now apply base_task_not_env.
    rewrite (proj1 (count_occ_not_In Task_eq_dec (Spec.core_tasks h) _))
      by now apply base_task_not_core.
    rewrite !Nat.add_0_r.
    apply NoDup_count_occ'; [apply base_tasks_NoDup|].
    unfold Spec.base_tasks. apply in_map, filter_In. split; [assumption|].
    rewrite Hone. cbn [existsb]. now rewrite Hc.
  - intros t' n Hin. apply Hplain in Hin.
    apply includes_false in Hin. apply Hin.
    cbn [create definition_args _args]. apply in_or_app. right. now left.
Qed.

(** C4 (amended).  When the parsed configuration has no [null] top-level
    value, every non-empty platform of an [env:] section is a string, it
    declares exactly one environment and the platform of that environment
    is compatible with a catalog template, the base task of that template
    occurs exactly once in the list [getTasks] returns, and no task of that
    list carries [--environment]: no environment-qualified variant of any
    template is in it. *)
Theorem single_environment (h : Host) (dir content : string)
        (raw : RawConf) (w : list string)
        (e : ProjectEnv) (t : TaskTemplate) :
  readFile h (path_join h dir "platformio.ini") = Normal content ->
  ini_parse h content = Normal raw ->
  well_typed raw = true ->
  projectData (typed raw) = [e] ->
  In t baseTasks ->
  taskCompatibleWithPlatform t (platform e) = true ->
  exists out,
    getTasks h dir w = (Normal out, w) /\
    count_occ Task_eq_dec out (create h (mkCreator (name t) (args t))) = 1 /\
    (forall d, In d out ->
               includes "--environment" (definition_args d) = false) /\
    (forall t' n,
        ~ In (create h (mkCreator (name t')
                                  (args t' ++ ["--environment"; n]))) out).
Proof.
  intros Hread Hparse Hok Hone Ht Hc.
  exists (getTasks_parsed h [] (typed raw)).
  split; [now apply getTasks_parsed_run with (content := content)|].
  now apply (single_environment_parsed h (typed raw) e t).
Qed.

Lemma single_environment_witness :
  exists out,
    getTasks (Sample.posix Sample.conf_uno) "/proj" [] = (Normal out, []) /\
    count_occ Task_eq_dec out
      (create (Sample.posix Sample.conf_uno)
              (mkCreator "Upload using Programmer"
                         ["run"; "--target"; "program"])) = 1 /\
    (forall d, In d out ->
               includes "--environment" (definition_args d) = false) /\
    (forall t' n,
        ~ In (create (Sample.posix Sample.conf_uno)
                     (mkCreator (name t')
                                (args t' ++ ["--environment"; n]))) out).
Proof.
  apply (single_environment
           (Sample.posix Sample.conf_uno) "/proj" "[env:uno]"
           (untyped Sample.conf_uno) [] (mkEnv "uno" "atmelavr")
           (mkTemplate "Upload using Programmer"
                       ["run"; "--target"; "program"])).
  - reflexivity.
  - reflexivity.
  - reflexivity.
  - reflexivity.
  - simpl. tauto.
  - reflexivity.
Defined.

(** C4 as first stated covers every parsed configuration with one
    environment.  The file [[env:x]] with a bare [platform] line declares
    one environment whose platform, [true], passes the filter for Build;
    [getTasks] throws at the SPIFFS template, where it calls [startsWith]
    on [true] (line 150), and returns no list.  So does the file with one
    environment and a top-level [debug = null] (line 175). *)
Lemma single_environment_counterexample :
  (exists err,
      getTasks (Sample.posix_raw Sample.raw_boolean) "/proj" [] =
      (Thrown err, [])) /\
  (exists err,
      getTasks (Sample.posix_raw Sample.raw_uno_null) "/proj" [] =
      (Thrown err, [])) /\
  ~ (forall (h : Host) (dir content : string) (raw : RawConf)
            (w : list string) (e : Untyped.ProjectEnv) (t : TaskTemplate),
        readFile h (path_join h dir "platformio.ini") = Normal content ->
        ini_parse h content = Normal raw ->
        Untyped.projectData raw = Normal [e] ->
        In t baseTasks ->
        Untyped.taskCompatibleWithPlatform t (Untyped.platform e)
        = Normal true ->
        exists out,
          getTasks h dir w = (Normal out, w) /\
          count_occ Task_eq_dec out
                    (create h (mkCreator (name t) (args t))) = 1).
Proof.
  split; [eexists; reflexivity|]. split; [eexists; reflexivity|].
  intros H.
  destruct (H (Sample.posix_raw Sample.raw_boolean) "/proj" "[env:uno]"
              Sample.raw_boolean [] (Untyped.mkEnv "x" (VBool true))
              (mkTemplate "Build" ["run"])
              eq_refl eq_refl eq_refl ltac:(simpl; tauto) eq_refl)
    as [out [Hrun _]].
  discriminate Hrun.
Qed.

(** ** Two or more environments *)

Lemma NoDup_map_inj {A B : Type} (f : A -> B) (l : list A) (x y : A) :
  NoDup (map f l) -> In x l -> In y l -> f x = f y -> x = y.
Proof.
  induction l as [|a l IH]; simpl; [contradiction|].
  intros Hnd Hx Hy E. inversion Hnd as [|? ? Hnotin Hnd']; subst.
  destruct Hx as [->|Hx], Hy as [->|Hy]; auto.
  - exfalso. apply Hnotin. rewrite E. now apply in_map.
  - exfalso. apply Hnotin. rewrite <- E. now apply in_map.
Qed.

Lemma catalog_args_inj (t t' : TaskTemplate) :
  In t baseTasks -> In t' baseTasks -> args t = args t' -> t = t'.
Proof. apply NoDup_map_inj, catalog_args_NoDup. Qed.

(** The same on a configuration of sections of strings. *)
Lemma environment_tasks_parsed (h : Host) (conf : ProjectConf) :
  NoDup (keys conf) ->
  2 <= length (projectData conf) ->
  (forall t e,
      In t baseTasks -> In e (projectData conf) ->
      taskCompatibleWithPlatform t (platform e) = true ->
      exists d,
        count_occ Task_eq_dec (getTasks_parsed h [] conf) d = 1 /\
        (forall d', In d' (getTasks_parsed h [] conf) ->
                    definition_args d' = definition_args d -> d' = d) /\
        definition_args d = args t ++ ["--environment"; env e] /\
        (env e <> "" ->
         task_name d = (name t ++ " (" ++ env e ++ ")")%string)) /\
  (forall d,
      In d (getTasks_parsed h [] conf) ->
      In "--environment" (definition_args d) ->
      exists t e,
        In t baseTasks /\ In e (projectData conf) /\
        taskCompatibleWithPlatform t (platform e) = true /\
        definition_args d = args t ++ ["--environment"; env e]).
Proof.
  intros Hnd Hlen.
  split.
  - intros t e Ht He Hc. exists (Spec.env_task h e t).
    pose proof (catalog_no_environment t Ht) as Hplain.
    repeat split.
    + rewrite getTasks_parsed_shape, !count_occ_app.
      rewrite (proj1 (count_occ_not_In Task_eq_dec
                        (Spec.base_tasks h (projectData conf)) _))
        by apply env_task_not_base.
      rewrite (proj1 (count_occ_not_In Task_eq_dec (Spec.core_tasks h) _))
        by apply env_task_not_core.
      rewrite Nat.add_0_r. cbn [Nat.add].
      apply NoDup_count_occ';
        [now apply env_tasks_NoDup, projectData_env_NoDup|].
      unfold Spec.env_tasks.
      replace (Nat.ltb 1 (length (projectData conf))) with true
        by (symmetry; apply Nat.ltb_lt; lia).
      apply in_flat_map. exists e. split; [assumption|].
      apply in_map, filter_In. tauto.
    + intros d' Hin E. apply getTasks_parsed_In in Hin.
      cbn [Spec.env_task create definition_args _args] in E.
      destruct Hin
        as [[t' [Ht' [_ ->]]] | [[_ [e' [t' [_ [Ht' [_ ->]]]]]] | Hcore]].
      * exfalso. apply (catalog_no_environment t' Ht').
        cbn [Spec.base_task create definition_args _args] in E.
        rewrite E. apply in_or_app. right. now left.
      * cbn [Spec.env_task create definition_args _args] in E.
        apply app_inj_pair in E. destruct E as [E [_ En]].
        apply (catalog_args_inj t' t Ht' Ht) in E. subst t'.
        unfold Spec.env_task. now rewrite En.
      * exfalso.
        assert (Hx : In "--environment" (definition_args d')).
        { rewrite E. apply in_or_app. right. now left. }
        apply (core_args_plain h _ _ Hcore) in Hx. intuition discriminate.
    + intros Hne. unfold Spec.env_task. rewrite name_qualified by assumption.
      apply truthy_nonempty in Hne. now rewrite Hne.
  - intros d Hin Hflag. apply getTasks_parsed_In in Hin.
    destruct Hin
      as [[t [Ht [_ ->]]] | [[_ [e [t [He [Ht [Hc ->]]]]]] | Hcore]].
    + exfalso. now apply (catalog_no_environment t Ht).
    + exists t, e. auto.
    + exfalso. apply (core_args_plain h _ _ Hcore) in Hflag.
      intuition discriminate.
Qed.

(** C2 (amended).  For a parsed configuration (each section name once)
    with no [null] top-level value, in which every non-empty platform of an
    [env:] section is a string, declaring two or more environments, and
    for every catalog template [t] and declared environment [e] with [t]
    compatible with the platform of [e], the list [getTasks] returns holds
    exactly one task whose argument list is the arguments of [t] followed
    by [--environment] and the name of [e]; when the name of [e] is not
    empty, its display name is the template name followed by a space and
    the name of [e] in parentheses.  Every task of the list that carries
    [--environment] comes from such a pair. *)
Theorem environment_tasks (h : Host) (dir content : string)
        (raw : RawConf) (w : list string) :
  NoDup (keys raw) ->
  readFile h (path_join h dir "platformio.ini") = Normal content ->
  ini_parse h content = Normal raw ->
  well_typed raw = true ->
  2 <= length (projectData (typed raw)) ->
  exists out,
    getTasks h dir w = (Normal out, w) /\
    (forall t e,
        In t baseTasks -> In e (projectData (typed raw)) ->
        taskCompatibleWithPlatform t (platform e) = true ->
        exists d,
          count_occ Task_eq_dec out d = 1 /\
          (forall d', In d' out ->
                      definition_args d' = definition_args d -> d' = d) /\
          definition_args d = args t ++ ["--environment"; env e] /\
          (env e <> "" ->
           task_name d = (name t ++ " (" ++ env e ++ ")")%string)) /\
    (forall d,
        In d out -> In "--environment" (definition_args d) ->
        exists t e,
          In t baseTasks /\ In e (projectData (typed raw)) /\
          taskCompatibleWithPlatform t (platform e) = true /\
          definition_args d = args t ++ ["--environment"; env e]).
Proof.
  intros Hnd Hread Hparse Hok Hlen.
  exists (getTasks_parsed h [] (typed raw)).
  split; [now apply getTasks_parsed_run with (content := content)|].
  apply environment_tasks_parsed; [now rewrite typed_keys | assumption].
Qed.

Lemma environment_tasks_witness :
  exists out,
    getTasks (Sample.posix Sample.conf_uno_esp) "/proj" [] =
      (Normal out, []) /\
    map task_name
        (filter (fun d => includes "--environment" (definition_args d)) out) =
    [ "Build (uno)"; "Clean (uno)"; "Upload (uno)"; "Upload and Monitor (uno)";
      "Upload using Programmer (uno)"; "Monitor (uno)"; "Test (uno)";
      "Remote (uno)"; "Pre-Debug (uno)";
      "Build (esp)"; "Clean (esp)"; "Upload (esp)"; "Upload and Monitor (esp)";
      "Upload SPIFFS image (esp)"; "Monitor (esp)"; "Test (esp)";
      "Remote (esp)"; "Pre-Debug (esp)" ].
Proof.
  destruct (environment_tasks
              (Sample.posix Sample.conf_uno_esp) "/proj" "[env:uno]"
              (untyped Sample.conf_uno_esp) []) as [out [Hrun _]].
  - repeat constructor; simpl; intuition discriminate.
  - reflexivity.
  - reflexivity.
  - reflexivity.
  - simpl. lia.
  - exists out. split; [exact Hrun|].
    assert (E : out = getTasks_parsed (Sample.posix Sample.conf_uno_esp) []
                                      Sample.conf_uno_esp).
    { vm_compute in Hrun. injection Hrun as <-. reflexivity. }
    rewrite E. reflexivity.
Defined.

(** C2 as first stated promises the parenthesised suffix for every
    environment, and a list for every parsed configuration with two or
    more environments.  With the sections [env:] and [env:uno] the task for
    the environment of empty name has arguments [run --environment ""] and
    is named [Build], not [Build ()].  With the sections [env:uno] and
    [env:x], the second with a bare [platform] line, [getTasks] calls
    [startsWith] on [true] (line 150) and throws: no list is returned. *)
Lemma environment_tasks_counterexample :
  ~ (forall (h : Host) (dir content : string) (raw : RawConf)
            (w : list string) (out : list Task)
            (t : TaskTemplate) (e : ProjectEnv) (d : Task),
        NoDup (keys raw) ->
        readFile h (path_join h dir "platformio.ini") = Normal content ->
        ini_parse h content = Normal raw ->
        getTasks h dir w = (Normal out, w) ->
        2 <= length (projectData (typed raw)) ->
        In t baseTasks -> In e (projectData (typed raw)) ->
        taskCompatibleWithPlatform t (platform e) = true ->
        In d out ->
        definition_args d = args t ++ ["--environment"; env e] ->
        task_name d = (name t ++ " (" ++ env e ++ ")")%string) /\
  (exists err,
      getTasks (Sample.posix_raw Sample.raw_uno_boolean) "/proj" [] =
      (Thrown err, [])) /\
  ~ (forall (h : Host) (dir content : string) (raw : RawConf)
            (w : list string) (e1 e2 : Untyped.ProjectEnv)
            (rest : list Untyped.ProjectEnv),
        NoDup (keys raw) ->
        readFile h (path_join h dir "platformio.ini") = Normal content ->
        ini_parse h content = Normal raw ->
        Untyped.projectData raw = Normal (e1 :: e2 :: rest) ->
        exists out, getTasks h dir w = (Normal out, w)).
Proof.
  split; [|split; [eexists; reflexivity|]].
  - intros H.
    specialize (H (Sample.posix Sample.conf_empty_name) "/proj" "[env:uno]"
                  (untyped Sample.conf_empty_name) []
                  (getTasks_parsed (Sample.posix Sample.conf_empty_name) []
                                   Sample.conf_empty_name)
                  (mkTemplate "Build" ["run"]) (mkEnv "" "atmelavr")
                  (create (Sample.posix Sample.conf_empty_name)
                          (mkCreator "Build" ["run"; "--environment"; ""]))).
    assert (Hfalse : "Build" = "Build ()"); [|discriminate Hfalse].
    apply H.
    + repeat constructor; simpl; intuition discriminate.
    + reflexivity.
    + reflexivity.
    + reflexivity.
    + simpl. lia.
    + simpl. tauto.
    + simpl. tauto.
    + reflexivity.
    + apply getTasks_parsed_In. right. left. split; [simpl; lia|].
      exists (mkEnv "" "atmelavr"), (mkTemplate "Build" ["run"]).
      simpl. tauto.
    + reflexivity.
  - intros H.
    destruct (H (Sample.posix_raw Sample.raw_uno_boolean) "/proj"
                "[env:uno]" Sample.raw_uno_boolean []
                (Untyped.mkEnv "uno" (VString "atmelavr"))
                (Untyped.mkEnv "x" (VBool true)) []
                ltac:(repeat constructor; simpl; intuition discriminate)
                eq_refl eq_refl eq_refl) as [out Hrun].
    discriminate Hrun.
Qed.

(** ** The executable of a task *)

Lemma pioCmd_not_windows (h : Host) :
  IS_WINDOWS h = false -> pioCmd h = "platformio".
Proof. intros H. unfold pioCmd. now rewrite H. Qed.

Lemma path_fold_no_match (h : Host) (dirs : list string) (cmd : string) :
  (forall d, In d dirs -> isFileSync h (path_join h d cmd) = false) ->
  fold_left (path_step h) dirs cmd = cmd.
Proof.
  induction dirs as [|d dirs IH]; intros Hno; simpl; [reflexivity|].
  unfold path_step at 2. rewrite (Hno d) by now left.
  apply IH. intros d' Hd'. apply Hno. now right.
Qed.

(** X9.  On Windows, when no later PATH entry joined with the path already
    found is a file, the loop ends with the first match, or with the bare
    [platformio.exe] when nothing matches. *)
Lemma pioCmd_first_match (h : Host) :
  IS_WINDOWS h = true ->
  (forall before d after,
      PATH_split h = before ++ d :: after ->
      isFileSync h (path_join h d "platformio.exe") = true ->
      forall d', In d' after ->
        isFileSync h (path_join h d' (path_join h d "platformio.exe"))
        = false) ->
  pioCmd h = Spec.executable h.
Proof.
  intros Hwin Hnest. unfold pioCmd, Spec.executable, Spec.resolve.
  rewrite Hwin.
  assert (Hgen : forall before dirs,
             PATH_split h = before ++ dirs ->
             fold_left (path_step h) dirs "platformio.exe" =
             match find (fun d => isFileSync h (path_join h d "platformio.exe"))
                        dirs with
             | Some d => path_join h d "platformio.exe"
             | None => "platformio.exe"
             end).
  { intros before dirs. revert before.
    induction dirs as [|d dirs IH]; intros before Hsplit; [reflexivity|].
    cbn [fold_left find]. unfold path_step at 2.
    destruct (isFileSync h (path_join h d "platformio.exe")) eqn:Hd.
    - apply path_fold_no_match. intros d' Hd'.
      now apply (Hnest before d dirs).
    - apply (IH (before ++ [d])). now rewrite <- app_assoc. }
  now apply (Hgen []).
Qed.

(** C9.  On the Windows host of [Sample.windows_nested] (PATH entries
    [tools] then [work], files [tools\platformio.exe] and
    [work\tools\platformio.exe]) the loop of [create] ends with
    [work\tools\platformio.exe]: after the match in [tools] the next turn
    joins [work] with the path just found.  The first directory holding
    [platformio.exe] is [tools], and [work] does not hold it. *)
Theorem pioCmd_nested_match :
  pioCmd Sample.windows_nested = "work\tools\platformio.exe" /\
  Spec.executable Sample.windows_nested = "tools\platformio.exe" /\
  isFileSync Sample.windows_nested
             (path_join Sample.windows_nested "work" "platformio.exe") = false /\
  execution_process
    (create Sample.windows_nested (mkCreator "Build" ["run"]))
  = "work\tools\platformio.exe".
Proof. repeat split; reflexivity. Qed.

Example pioCmd_windows_plain :
  pioCmd Sample.windows_plain = "C:\pio\platformio.exe" /\
  pioCmd Sample.windows_plain = Spec.executable Sample.windows_plain.
Proof. split; reflexivity. Qed.

(** ** Debounce and lifecycle *)

Module LifecycleFacts.

Import Lifecycle.
Local Open Scope nat_scope.
#[local] Arguments dispose : simpl never.
#[local] Arguments refresh : simpl never.
#[local] Arguments requestRefresh : simpl never.

(** *** What each method changes *)

Lemma fold_dispose_fields (subs : list Resource) (s : State) :
  let s' := fold_left dispose_one subs s in
  subscriptions s' = subscriptions s /\
  _refreshTimeout s' = _refreshTimeout s /\
  now s' = now s /\ next_id s' = next_id s /\
  timers s' = timers s /\ watcher_throws s' = watcher_throws s /\
  refreshes s' = refreshes s.
Proof.
  revert s. induction subs as [|r subs IH]; intros s; simpl.
  - repeat split.
  - specialize (IH (dispose_one s r)). simpl in IH. exact IH.
Qed.

Lemma fold_dispose_live (subs : list Resource) (s : State) (r : Resource) :
  In r (live (fold_left dispose_one subs s)) ->
  In r (live s) /\ forall sub, In sub subs -> rid r <> rid sub.
Proof.
  revert s. induction subs as [|x subs IH]; intros s; simpl.
  - intros H. split; [assumption | contradiction].
  - intros H. apply IH in H. destruct H as [Hin Hne].
    simpl in Hin. apply filter_In in Hin. destruct Hin as [Hin Hx].
    split; [assumption|].
    intros sub [<-|Hsub]; [|now apply Hne].
    apply negb_true_iff, Nat.eqb_neq in Hx. exact Hx.
Qed.

(** [dispose] releases every registration that is on [subscriptions]. *)
Lemma dispose_live (s : State) :
  live s = subscriptions s -> live (dispose s) = [].
Proof.
  intros Hwf. unfold dispose. simpl.
  destruct (live (fold_left dispose_one (subscriptions s) s))
    as [|r l] eqn:E; [reflexivity|].
  destruct (fold_dispose_live (subscriptions s) s r) as [Hin Hne].
  - rewrite E. now left.
  - exfalso. rewrite Hwf in Hin. now apply (Hne r Hin).
Qed.

Lemma dispose_fields (s : State) :
  subscriptions (dispose s) = [] /\
  _refreshTimeout (dispose s) = _refreshTimeout s /\
  now (dispose s) = now s /\ next_id (dispose s) = next_id s /\
  timers (dispose s) = timers s /\
  watcher_throws (dispose s) = watcher_throws s /\
  refreshes (dispose s) = refreshes s.
Proof.
  unfold dispose. simpl.
  destruct (fold_dispose_fields (subscriptions s) s)
    as [_ [H1 [H2 [H3 [H4 [H5 H6]]]]]].
  repeat split; assumption.
Qed.

Lemma refresh_fields (s : State) :
  _refreshTimeout (refresh s) = _refreshTimeout s /\
  now (refresh s) = now s /\
  timers (refresh s) = timers s /\
  watcher_throws (refresh s) = watcher_throws s /\
  refreshes (refresh s) = S (refreshes s).
Proof.
  destruct (dispose_fields s) as [_ [H1 [H2 [_ [H4 [H5 H6]]]]]].
  unfold refresh, addProjectConfigWatcher. cbn [register_push watcher_throws].
  rewrite H5. destruct (watcher_throws s); cbn; repeat split; congruence.
Qed.

Lemma refresh_live (s : State) :
  live s = subscriptions s -> live (refresh s) = subscriptions (refresh s).
Proof.
  intros Hwf. pose proof (dispose_live s Hwf) as Hl.
  destruct (dispose_fields s) as [Hs [_ [_ [_ [_ [Hw _]]]]]].
  unfold refresh, addProjectConfigWatcher. cbn [register_push watcher_throws].
  rewrite Hw. destruct (watcher_throws s); cbn; now rewrite Hl, Hs.
Qed.

Lemma requestRefresh_fields (s : State) :
  timers_ok s ->
  timers (requestRefresh s) = [(next_id s, now s + AUTO_REFRESH_DELAY)] /\
  _refreshTimeout (requestRefresh s) = Some (next_id s) /\
  now (requestRefresh s) = now s /\
  subscriptions (requestRefresh s) = subscriptions s /\
  live (requestRefresh s) = live s /\
  refreshes (requestRefresh s) = refreshes s.
Proof.
  intros [Hnone | [id [t [Hone Hid]]]]; unfold requestRefresh.
  - destruct (_refreshTimeout s) as [id|]; simpl; rewrite Hnone; simpl;
      repeat split.
  - rewrite Hid. simpl. rewrite Hone. simpl. rewrite Nat.eqb_refl. simpl.
    repeat split.
Qed.

Lemma requestRefresh_ok (s : State) :
  timers_ok s -> timers_ok (requestRefresh s).
Proof.
  intros H. destruct (requestRefresh_fields s H) as [Ht [Hid _]].
  right. eauto.
Qed.

(** *** The clock *)

Lemma advance_idle (t : nat) (s : State) :
  timers s = [] ->
  advance t s = mkState (subscriptions s) (_refreshTimeout s) t (next_id s)
                        [] (live s) (watcher_throws s) (refreshes s).
Proof. intros H. unfold advance. now rewrite H. Qed.

Lemma advance_wait (t id dl : nat) (s : State) :
  timers s = [(id, dl)] -> t < dl ->
  advance t s = mkState (subscriptions s) (_refreshTimeout s) t (next_id s)
                        [(id, dl)] (live s) (watcher_throws s) (refreshes s).
Proof.
  intros H Hlt. unfold advance. rewrite H. simpl.
  replace (dl <=? t) with false by (symmetry; apply Nat.leb_gt; lia).
  reflexivity.
Qed.

Lemma advance_fire (t id dl : nat) (s : State) :
  timers s = [(id, dl)] -> dl <= t ->
  advance t s =
  refresh (mkState (subscriptions s) (_refreshTimeout s) t (next_id s)
                   [] (live s) (watcher_throws s) (refreshes s)).
Proof.
  intros H Hle. unfold advance. rewrite H. simpl.
  replace (dl <=? t) with true by (symmetry; apply Nat.leb_le; lia).
  reflexivity.
Qed.

(** *** The invariant of the reachable states *)

Lemma construct_wf (t0 : nat) (throws : bool) : wf (construct t0 throws).
Proof.
  split; [reflexivity|]. right. exists 1, (t0 + AUTO_REFRESH_DELAY).
  split; reflexivity.
Qed.

Lemma requestRefresh_wf (s : State) : wf s -> wf (requestRefresh s).
Proof.
  intros [Hl Ht]. destruct (requestRefresh_fields s Ht)
    as [_ [_ [_ [Hs [Hl' _]]]]].
  split; [congruence | now apply requestRefresh_ok].
Qed.

Lemma dispose_wf (s : State) : wf s -> wf (dispose s).
Proof.
  intros [Hl Ht]. destruct (dispose_fields s) as [Hs [Hid [_ [_ [Htm _]]]]].
  split.
  - now rewrite dispose_live, Hs.
  - unfold timers_ok. now rewrite Htm, Hid.
Qed.

Lemma refresh_wf (s : State) : wf s -> wf (refresh s).
Proof.
  intros [Hl Ht]. destruct (refresh_fields s) as [Hid [_ [Htm _]]].
  split.
  - now apply refresh_live.
  - unfold timers_ok. now rewrite Htm, Hid.
Qed.

Lemma advance_wf (t : nat) (s : State) : wf s -> wf (advance t s).
Proof.
  intros [Hl [Hnone | [id [dl [Hone Hid]]]]].
  - rewrite advance_idle by assumption. split; [exact Hl | now left].
  - destruct (Nat.le_gt_cases dl t) as [Hle | Hgt].
    + rewrite (advance_fire t id dl) by assumption.
      apply refresh_wf. split; [exact Hl | now left].
    + rewrite (advance_wait t id dl) by assumption.
      split; [exact Hl|]. right. exists id, dl. split; [reflexivity|exact Hid].
Qed.

Lemma step_wf (s : State) (e : Event) : wf s -> wf (step s e).
Proof.
  intros H. destruct e; simpl.
  - destruct (handler_live CreateHandler s);
      [now apply requestRefresh_wf | assumption].
  - destruct (handler_live ChangeHandler s);
      [now apply requestRefresh_wf | assumption].
  - destruct (handler_live DeleteHandler s);
      [now apply dispose_wf | assumption].
  - now apply advance_wf.
Qed.

Lemma run_wf (evs : list Event) (s : State) : wf s -> wf (run evs s).
Proof.
  revert s. induction evs as [|e evs IH]; intros s H; simpl; [assumption|].
  apply IH. now apply step_wf.
Qed.

(** The three triggers are calls of [requestRefresh]. *)
Lemma trigger_initial_load (t0 : nat) (throws : bool) :
  construct t0 throws = requestRefresh (mkState [] None t0 1 [] [] throws 0).
Proof. reflexivity. Qed.

Lemma trigger_created (s : State) :
  handler_live CreateHandler s = true -> step s FsCreate = requestRefresh s.
Proof. intros H. simpl. now rewrite H. Qed.

Lemma trigger_changed (s : State) :
  handler_live ChangeHandler s = true -> step s FsChange = requestRefresh s.
Proof. intros H. simpl. now rewrite H. Qed.

(** *** Debounce *)

Lemma requestRefresh_pending (s : State) :
  timers_ok s ->
  pending (requestRefresh s) /\
  refreshes (requestRefresh s) = refreshes s.
Proof.
  intros H.
  destruct (requestRefresh_fields s H) as [Ht [Hid [Hn [_ [_ Hr]]]]].
  split; [|exact Hr]. exists (next_id s). rewrite Hn. auto.
Qed.

Lemma wait_pending (s : State) (d : nat) :
  pending s -> d < AUTO_REFRESH_DELAY ->
  timers_ok (step s (Elapse d)) /\
  refreshes (step s (Elapse d)) = refreshes s.
Proof.
  intros [id [Ht Hid]] Hd. cbn [step].
  rewrite (advance_wait _ id (now s + AUTO_REFRESH_DELAY)) by (trivial; lia).
  split; [|reflexivity]. right. exists id, (now s + AUTO_REFRESH_DELAY).
  split; [reflexivity | exact Hid].
Qed.

Lemma fire_pending (s : State) (d : nat) :
  pending s -> AUTO_REFRESH_DELAY <= d ->
  timers (step s (Elapse d)) = [] /\
  refreshes (step s (Elapse d)) = S (refreshes s).
Proof.
  intros [id [Ht Hid]] Hd. cbn [step].
  rewrite (advance_fire _ id (now s + AUTO_REFRESH_DELAY)) by (trivial; lia).
  match goal with
  | |- context [refresh ?x] =>
      destruct (refresh_fields x) as [_ [_ [Htm [_ Hr]]]]
  end.
  split; [exact Htm | exact Hr].
Qed.

Lemma burst_pending (gaps : list nat) (s : State) :
  Forall (fun g => g < AUTO_REFRESH_DELAY) gaps ->
  pending s ->
  pending (burst gaps s) /\ refreshes (burst gaps s) = refreshes s.
Proof.
  revert s. induction gaps as [|d gaps IH]; intros s Hgaps Hp.
  - split; [exact Hp | reflexivity].
  - inversion Hgaps as [|? ? Hd Hgaps']; subst.
    destruct (wait_pending s d Hp Hd) as [Hok Hr].
    destruct (requestRefresh_pending _ Hok) as [Hp' Hr'].
    destruct (IH _ Hgaps' Hp') as [Hp'' Hr''].
    cbn [burst]. split; [exact Hp'' | congruence].
Qed.

(** C8.  From any state whose only pending timeout, if any, is the one
    in [_refreshTimeout]: [N >= 1] calls of [requestRefresh] (the call
    made by the constructor, by the create handler and by the change
    handler), each less than [AUTO_REFRESH_DELAY] = 1000 ms after the one
    before, run [refresh] not at all while they arrive and leave exactly
    one timeout pending, due 1000 ms after the last call; no [refresh]
    runs before that time, and exactly one has run once 1000 ms have
    passed.  A further call after that, followed by 1000 ms, runs
    [refresh] a second time. *)
Theorem debounce (s : State) (gaps : list nat) (d0 d d' : nat) :
  timers_ok s ->
  Forall (fun g => g < AUTO_REFRESH_DELAY) gaps ->
  d0 < AUTO_REFRESH_DELAY ->
  AUTO_REFRESH_DELAY <= d ->
  AUTO_REFRESH_DELAY <= d' ->
  let s1 := burst gaps (requestRefresh s) in
  let s2 := step s1 (Elapse d) in
  let s3 := step (requestRefresh s2) (Elapse d') in
  AUTO_REFRESH_DELAY = 1000 /\
  refreshes s1 = refreshes s /\
  (exists id, timers s1 = [(id, now s1 + AUTO_REFRESH_DELAY)]) /\
  refreshes (step s1 (Elapse d0)) = refreshes s /\
  refreshes s2 = refreshes s + 1 /\
  timers s2 = [] /\
  refreshes s3 = refreshes s + 2.
Proof.
  intros Hok Hgaps Hd0 Hd Hd' s1 s2 s3.
  destruct (requestRefresh_pending s Hok) as [Hp0 Hr0].
  destruct (burst_pending gaps _ Hgaps Hp0) as [Hp1 Hr1].
  fold s1 in Hp1, Hr1.
  destruct (wait_pending s1 d0 Hp1 Hd0) as [_ Hrw].
  destruct (fire_pending s1 d Hp1 Hd) as [Ht2 Hr2]. fold s2 in Ht2, Hr2.
  assert (Hok2 : timers_ok s2) by now left.
  destruct (requestRefresh_pending s2 Hok2) as [Hp3 Hr3].
  destruct (fire_pending _ d' Hp3 Hd') as [_ Hr4]. fold s3 in Hr4.
  split; [reflexivity|].
  split; [congruence|].
  split; [destruct Hp1 as [id [Ht _]]; now exists id|].
  split; [congruence|].
  split; [lia|].
  split; [exact Ht2 | lia].
Qed.

Lemma debounce_witness :
  let s1 := burst [200; 300; 999] (requestRefresh (construct 0 false)) in
  let s2 := step s1 (Elapse 1000) in
  let s3 := step (requestRefresh s2) (Elapse 1500) in
  AUTO_REFRESH_DELAY = 1000 /\
  refreshes s1 = refreshes (construct 0 false) /\
  (exists id, timers s1 = [(id, now s1 + AUTO_REFRESH_DELAY)]) /\
  refreshes (step s1 (Elapse 999)) = refreshes (construct 0 false) /\
  refreshes s2 = refreshes (construct 0 false) + 1 /\
  timers s2 = [] /\
  refreshes s3 = refreshes (construct 0 false) + 2.
Proof.
  apply (debounce (construct 0 false) [200; 300; 999] 999 1000 1500).
  - right. exists 1, 1000. split; reflexivity.
  - repeat constructor; unfold AUTO_REFRESH_DELAY; lia.
  - unfold AUTO_REFRESH_DELAY; lia.
  - unfold AUTO_REFRESH_DELAY; lia.
  - unfold AUTO_REFRESH_DELAY; lia.
Defined.

(** *** Deletion of the configuration file *)

Lemma quiet_forever (evs : list Event) (s : State) :
  live s = [] -> timers s = [] ->
  refreshes (run evs s) = refreshes s /\ live (run evs s) = [].
Proof.
  revert s. induction evs as [|e evs IH]; intros s Hl Ht.
  - split; [reflexivity | exact Hl].
  - cbn [run fold_left]. fold (run evs (step s e)).
    assert (Hstep : live (step s e) = [] /\ timers (step s e) = [] /\
                    refreshes (step s e) = refreshes s).
    { destruct e; cbn [step]; unfold handler_live;
        rewrite ?Hl; cbn [existsb]; auto.
      rewrite advance_idle by assumption. cbn. auto. }
    destruct Hstep as [Hl' [Ht' Hr']].
    destruct (IH _ Hl' Ht') as [Hr'' Hl''].
    split; [congruence | exact Hl''].
Qed.

(** C7 (amended).  In a state where the host holds exactly the
    registrations on [subscriptions], when the deletion event reaches its
    handler: every registration is released and [subscriptions] is
    empty; the handler schedules nothing, the pending timeouts and
    [_refreshTimeout] are as before and no [refresh] has run.  If no
    timeout was pending at that moment, then whatever events follow, no
    [refresh] ever runs again and nothing is registered. *)
Theorem config_deleted (s : State) :
  wf s ->
  handler_live DeleteHandler s = true ->
  let s' := step s FsDelete in
  live s' = [] /\
  subscriptions s' = [] /\
  timers s' = timers s /\
  _refreshTimeout s' = _refreshTimeout s /\
  refreshes s' = refreshes s /\
  (timers s = [] ->
   forall evs, refreshes (run evs s') = refreshes s /\
               live (run evs s') = []).
Proof.
  intros [Hl Hok] Hlive s'.
  assert (E : s' = dispose s) by (unfold s'; cbn [step]; now rewrite Hlive).
  destruct (dispose_fields s) as [Hs [Hid [_ [_ [Htm [_ Hr]]]]]].
  pose proof (dispose_live s Hl) as Hl'.
  rewrite E. repeat split; try assumption.
  - rewrite <- Hr. apply quiet_forever; [assumption | congruence].
  - apply quiet_forever; [assumption | congruence].
Qed.

Lemma config_deleted_witness :
  let s := run [Elapse 1000] (construct 0 false) in
  let s' := step s FsDelete in
  live s' = [] /\
  subscriptions s' = [] /\
  timers s' = timers s /\
  _refreshTimeout s' = _refreshTimeout s /\
  refreshes s' = refreshes s /\
  (timers s = [] ->
   forall evs, refreshes (run evs s') = refreshes s /\
               live (run evs s') = []).
Proof.
  apply (config_deleted (run [Elapse 1000] (construct 0 false))).
  - split; [reflexivity | left; reflexivity].
  - reflexivity.
Defined.

(** C7 as first stated lets no [refresh] run after the deletion until a
    new create or change event.  The configuration changes 500 ms before
    it is deleted: the timeout of the change is still pending when the
    handler disposes, it fires 500 ms later, [refresh] runs and registers
    the provider and the watcher again. *)
Lemma config_deleted_pending_counterexample :
  ~ (forall (s : State) (evs : list Event),
        wf s ->
        handler_live DeleteHandler s = true ->
        Forall (fun e => e <> FsCreate /\ e <> FsChange) evs ->
        refreshes (run evs (step s FsDelete)) =
        refreshes (step s FsDelete)).
Proof.
  intros H.
  specialize (H (run [Elapse 1000; FsChange; Elapse 500]
                     (construct 0 false))
                [Elapse 500]).
  assert (Hfalse : 2 = 1); [|discriminate Hfalse].
  apply H.
  - apply run_wf, construct_wf.
  - reflexivity.
  - repeat constructor; discriminate.
Qed.

End LifecycleFacts.

(* ================================================================== *)
(** * Further properties of the code *)
(* ================================================================== *)

(** ** Extraction of the environments *)






(** ** When [getTasks] throws *)

Lemma fold_step_thrown (raw : RawConf) (ks : list string) (err : string) :
  fold_left (Untyped.projectData_step raw) ks (Thrown err) = Thrown err.
Proof. induction ks as [|k ks IH]; [reflexivity | exact IH]. Qed.

Lemma fold_push_base_thrown (h : Host) (pd : list Untyped.ProjectEnv)
      (l : list TaskTemplate) (err : string) :
  fold_left (Untyped.push_base h pd) l (Thrown err) = Thrown err.
Proof. induction l as [|t l IH]; [reflexivity | exact IH]. Qed.

Lemma fold_push_env_thrown (h : Host) (data : Untyped.ProjectEnv)
      (l : list TaskTemplate) (err : string) :
  fold_left (Untyped.push_env h data) l (Thrown err) = Thrown err.
Proof. induction l as [|t l IH]; [reflexivity | exact IH]. Qed.

Lemma fold_env_loop_thrown (h : Host) (pd : list Untyped.ProjectEnv)
      (err : string) :
  fold_left (fun sofar data =>
               fold_left (Untyped.push_env h data) baseTasks sofar)
            pd (Thrown err) = Thrown err.
Proof.
  induction pd as [|d pd IH]; [reflexivity|].
  cbn [fold_left]. rewrite fold_push_env_thrown. exact IH.
Qed.

(** A [null] among the values the loop reads ends it with a throw. *)
Lemma projectData_null (raw : RawConf) (ks : list string) (k : string)
      (sofar : Completion (list Untyped.ProjectEnv)) :
  In k ks -> get k raw = Some VNull ->
  exists err, fold_left (Untyped.projectData_step raw) ks sofar = Thrown err.
Proof.
  revert sofar. induction ks as [|k0 ks IH]; intros sofar Hin Hget;
    [contradiction|].
  cbn [fold_left]. destruct Hin as [->|Hin]; [|now apply IH].
  destruct sofar as [acc|err].
  - unfold Untyped.projectData_step at 2. rewrite Hget.
    cbn [and_then get_platform]. rewrite fold_step_thrown. eauto.
  - cbn [Untyped.projectData_step and_then]. rewrite fold_step_thrown. eauto.
Qed.

(** When the loop ends normally, it has appended what each key gives. *)
Lemma projectData_normal (raw : RawConf) (ks : list string)
      (acc pd : list Untyped.ProjectEnv) :
  fold_left (Untyped.projectData_step raw) ks (Normal acc) = Normal pd ->
  pd = acc ++ flat_map (raw_env_of_key raw) ks.
Proof.
  revert acc. induction ks as [|k ks IH]; intros acc.
  - cbn. intros [= <-]. now rewrite app_nil_r.
  - cbn [fold_left flat_map]. unfold Untyped.projectData_step at 2.
    unfold raw_env_of_key at 1. cbn [and_then].
    destruct (get k raw) as [v|];
      [|rewrite fold_step_thrown; discriminate].
    destruct v as [|b|s|items|fields]; cbn [get_platform and_then].
    + rewrite fold_step_thrown. discriminate.
    + intros H. now apply IH in H.
    + intros H. now apply IH in H.
    + intros H. now apply IH in H.
    + destruct (get "platform" fields) as [p|];
        [|intros H; now apply IH in H].
      destruct (truthy_value p); destruct (startsWith k ENV_NAME_PREFIX);
        cbn [negb orb andb]; intros H; apply IH in H;
        rewrite H; now rewrite <- ?app_assoc.
Qed.

(** One environment whose platform is not a string: the first loop over
    the catalog throws at the SPIFFS template. *)
Lemma base_loop_throws (h : Host) (n : string) (v : Value)
      (result : list Task) :
  is_string v = false ->
  exists err,
    fold_left (Untyped.push_base h [Untyped.mkEnv n v]) baseTasks
              (Normal result) = Thrown err.
Proof.
  intros Hv. destruct v; try discriminate Hv; eexists; reflexivity.
Qed.

(** An environment whose platform is not a string: the inner loop over
    the catalog throws at the SPIFFS template. *)
Lemma env_group_throws (h : Host) (data : Untyped.ProjectEnv)
      (sofar : Completion (list Task)) :
  is_string (Untyped.platform data) = false ->
  exists err,
    fold_left (Untyped.push_env h data) baseTasks sofar = Thrown err.
Proof.
  intros Hv. destruct sofar as [result|err];
    [|rewrite fold_push_env_thrown; eauto].
  destruct data as [n v]. cbn [Untyped.platform] in Hv.
  destruct v; try discriminate Hv; eexists; reflexivity.
Qed.

Lemma env_loop_throws (h : Host) (pd : list Untyped.ProjectEnv)
      (data : Untyped.ProjectEnv) (sofar : Completion (list Task)) :
  In data pd -> is_string (Untyped.platform data) = false ->
  exists err,
    fold_left (fun sofar data =>
                 fold_left (Untyped.push_env h data) baseTasks sofar)
              pd sofar = Thrown err.
Proof.
  revert sofar. induction pd as [|d pd IH]; intros sofar Hin Hv;
    [contradiction|].
  cbn [fold_left]. destruct Hin as [->|Hin]; [|now apply IH].
  destruct (env_group_throws h data sofar Hv) as [err ->].
  rewrite fold_env_loop_thrown. eauto.
Qed.

Lemma not_well_typed (raw : RawConf) :
  well_typed raw = false ->
  (exists k, In (k, VNull) raw) \/
  (exists k fields p,
      In (k, VObject fields) raw /\ get "platform" fields = Some p /\
      truthy_value p = true /\ startsWith k ENV_NAME_PREFIX = true /\
      is_string p = false).
Proof.
  unfold well_typed. induction raw as [|[k v] raw IH]; [discriminate|].
  cbn [forallb]. destruct (entry_ok (k, v)) eqn:Hok.
  - cbn [andb]. intros H. destruct (IH H) as [[k' Hk'] | [k' [f [p [Hin Hr]]]]].
    + left. exists k'. now right.
    + right. exists k', f, p. split; [now right | exact Hr].
  - intros _. unfold entry_ok in Hok. cbn [fst snd] in Hok.
    destruct v as [|b|s|items|fields]; try discriminate Hok.
    + left. exists k. now left.
    + right. destruct (get "platform" fields) as [p|] eqn:Hp;
        [|discriminate Hok].
      exists k, fields, p.
      destruct (truthy_value p); destruct (startsWith k ENV_NAME_PREFIX);
        destruct (is_string p); try discriminate Hok.
      repeat split; auto. now left.
Qed.

Lemma getTasks_parsed_throws (h : Host) (raw : RawConf) :
  NoDup (keys raw) -> well_typed raw = false ->
  exists err, Untyped.getTasks_parsed h [] raw = Thrown err.
Proof.
  intros Hnd Hbad. unfold Untyped.getTasks_parsed.
  destruct (Untyped.projectData raw) as [pd|err] eqn:Hpd;
    [|cbn [and_then]; eauto].
  cbn [and_then].
  destruct (not_well_typed raw Hbad)
    as [[k Hin] | [k [fields [p [Hin [Hp [Ht [Hs Hstr]]]]]]]].
  - exfalso. unfold Untyped.projectData in Hpd.
    destruct (projectData_null raw (keys raw) k (Normal []))
      as [err Herr].
    + unfold keys. change k with (fst (k, VNull)). now apply in_map.
    + now apply get_NoDup.
    + congruence.
  - assert (Hdata : In (Untyped.mkEnv (slice_from 4 k) p) pd).
    { unfold Untyped.projectData in Hpd.
      apply projectData_normal in Hpd. rewrite Hpd. cbn [app].
      apply in_flat_map. exists k. split.
      - unfold keys. change k with (fst (k, VObject fields)).
        now apply in_map.
      - unfold raw_env_of_key.
        rewrite (get_NoDup k (VObject fields) raw Hnd Hin), Hp, Ht, Hs.
        now left. }
    destruct (Nat.ltb 1 (length pd)) eqn:Hlen.
    + destruct (fold_left (Untyped.push_base h pd) baseTasks (Normal []))
        as [result|err]; [|cbn [and_then]; eauto].
      cbn [and_then].
      destruct (env_loop_throws h pd _ (Normal result) Hdata Hstr)
        as [err ->].
      cbn [and_then]. eauto.
    + apply Nat.ltb_ge in Hlen.
      destruct pd as [|d [|d' pd]];
        [contradiction | | cbn [length] in Hlen; lia].
      destruct Hdata as [->|[]].
      destruct (base_loop_throws h (slice_from 4 k) p [] Hstr) as [err ->].
      cbn [and_then]. eauto.
Qed.

(** X2.  Once [platformio.ini] is read and parsed (each section name
    once), [getTasks] shows no message and ends in one of two ways.  If no
    top-level value is [null] and every non-empty platform of an [env:]
    section is a string, it returns a list, which ends with the three core
    tasks.  Otherwise it throws: the exception of line 175 or line 150
    leaves [getTasks], past its try block. *)
Theorem getTasks_returns_or_throws (h : Host) (dir content : string)
        (raw : RawConf) (w : list string) :
  readFile h (path_join h dir "platformio.ini") = Normal content ->
  ini_parse h content = Normal raw ->
  NoDup (keys raw) ->
  if well_typed raw
  then exists front,
      getTasks h dir w = (Normal (front ++ Spec.core_tasks h), w)
  else exists err, getTasks h dir w = (Thrown err, w).
Proof.
  intros Hread Hparse Hnd.
  destruct (well_typed raw) eqn:Hok.
  - rewrite (getTasks_parsed_run h dir content raw w Hread Hparse Hok).
    rewrite getTasks_parsed_shape, app_assoc. eauto.
  - rewrite (getTasks_untyped_run h dir content raw w Hread Hparse).
    destruct (getTasks_parsed_throws h raw Hnd Hok) as [err ->]. eauto.
Qed.

Lemma getTasks_returns_or_throws_witness :
  (exists front,
      getTasks (Sample.posix_raw Sample.raw_mixed) "/proj" [] =
      (Normal (front ++ Spec.core_tasks (Sample.posix_raw Sample.raw_mixed)),
       [])) /\
  (exists err,
      getTasks (Sample.posix_raw Sample.raw_uno_boolean) "/proj" [] =
      (Thrown err, [])).
Proof.
  split.
  - apply (getTasks_returns_or_throws
             (Sample.posix_raw Sample.raw_mixed) "/proj" "[env:uno]"
             Sample.raw_mixed [] eq_refl eq_refl).
    repeat constructor; simpl; intuition discriminate.
  - apply (getTasks_returns_or_throws
             (Sample.posix_raw Sample.raw_uno_boolean) "/proj" "[env:uno]"
             Sample.raw_uno_boolean [] eq_refl eq_refl).
    repeat constructor; simpl; intuition discriminate.
Defined.

(** Every list [getTasks] returns after a parse is the list of the code on
    sections of strings, at the configuration read as such: what is proved
    of [getTasks_parsed] holds of every list that is returned. *)
Lemma getTasks_output (h : Host) (dir content : string) (raw : RawConf)
      (w w' : list string) (out : list Task) :
  readFile h (path_join h dir "platformio.ini") = Normal content ->
  ini_parse h content = Normal raw ->
  NoDup (keys raw) ->
  getTasks h dir w = (Normal out, w') ->
  well_typed raw = true /\ w' = w /\ out = getTasks_parsed h [] (typed raw).
Proof.
  intros Hread Hparse Hnd Hrun.
  destruct (well_typed raw) eqn:Hok.
  - rewrite (getTasks_parsed_run h dir content raw w Hread Hparse Hok) in Hrun.
    injection Hrun as <- <-. auto.
  - rewrite (getTasks_untyped_run h dir content raw w Hread Hparse) in Hrun.
    destruct (getTasks_parsed_throws h raw Hnd Hok) as [err Herr].
    rewrite Herr in Hrun. discriminate Hrun.
Qed.

(** ** The two platform-bound templates *)

(** X3.  No platform string is compatible both with a template carrying
    [program] and with one carrying [uploadfs].  Hence of the ten catalog
    templates eight or nine are compatible with any given platform, never
    all ten, and the templates carrying neither target are among them. *)
Theorem platform_targets_exclusive (platform : string) :
  (forall t1 t2,
      In "program" (args t1) -> In "uploadfs" (args t2) ->
      taskCompatibleWithPlatform t1 platform = true ->
      taskCompatibleWithPlatform t2 platform = false) /\
  (let group := filter (fun t => taskCompatibleWithPlatform t platform)
                       baseTasks in
   (length group = 8 \/ length group = 9) /\
   (forall t, In t baseTasks ->
              ~ In "program" (args t) -> ~ In "uploadfs" (args t) ->
              In t group)).
Proof.
  assert (Hex : forall t1 t2,
             In "program" (args t1) -> In "uploadfs" (args t2) ->
             taskCompatibleWithPlatform t1 platform = true ->
             taskCompatibleWithPlatform t2 platform = false).
  { intros t1 t2 H1 H2 Hc1.
    destruct (taskCompatibleWithPlatform t2 platform) eqn:Hc2; [|reflexivity].
    apply compatible_iff in Hc1. apply compatible_iff in Hc2.
    destruct Hc1 as [Hp _]. destruct Hc2 as [_ Hu].
    specialize (Hp H1). destruct (Hu H2) as [rest Hrest].
    rewrite Hp in Hrest. discriminate Hrest. }
  split; [exact Hex|]. cbv zeta. split.
  - pose proof (Hex (mkTemplate "Upload using Programmer"
                                ["run"; "--target"; "program"])
                    (mkTemplate "Upload SPIFFS image"
                                ["run"; "--target"; "uploadfs"])
                    ltac:(simpl; tauto) ltac:(simpl; tauto)) as H.
    unfold baseTasks. cbn [filter].
    change (taskCompatibleWithPlatform (mkTemplate "Build" ["run"]) platform)
      with true.
    change (taskCompatibleWithPlatform
              (mkTemplate "Clean" ["run"; "--target"; "clean"]) platform)
      with true.
    change (taskCompatibleWithPlatform
              (mkTemplate "Upload" ["run"; "--target"; "upload"]) platform)
      with true.
    change (taskCompatibleWithPlatform
              (mkTemplate "Upload and Monitor"
                 ["run"; "--target"; "upload"; "--target"; "monitor"])
              platform) with true.
    change (taskCompatibleWithPlatform
              (mkTemplate "Monitor" ["device"; "monitor"]) platform)
      with true.
    change (taskCompatibleWithPlatform (mkTemplate "Test" ["test"]) platform)
      with true.
    change (taskCompatibleWithPlatform
              (mkTemplate "Remote" ["remote"; "run"; "--target"; "upload"])
              platform) with true.
    change (taskCompatibleWithPlatform (mkTemplate "Pre-Debug" ["debug"])
                                       platform) with true.
    destruct (taskCompatibleWithPlatform
                (mkTemplate "Upload using Programmer"
                            ["run"; "--target"; "program"]) platform).
    + rewrite (H eq_refl). right. reflexivity.
    + destruct (taskCompatibleWithPlatform _ platform);
        [right | left]; reflexivity.
  - intros t Ht Hp Hu. apply filter_In. split; [assumption|].
    apply compatible_iff. tauto.
Qed.

Lemma platform_targets_exclusive_witness :
  taskCompatibleWithPlatform
    (mkTemplate "Upload SPIFFS image" ["run"; "--target"; "uploadfs"])
    "atmelavr" = false.
Proof.
  apply (proj1 (platform_targets_exclusive "atmelavr")
               (mkTemplate "Upload using Programmer"
                           ["run"; "--target"; "program"])).
  - simpl. tauto.
  - simpl. tauto.
  - reflexivity.
Defined.

(** ** Reading the environment and the target back from the arguments *)

(** X4.  For every task of the list [getTasks] builds, the getter
    [_coreEnvName] applied to the arguments of the task reads back the
    environment the task was made for: it is the name of a declared
    environment [e], compatible with the template, when the task is the
    environment task of [e], and it is undefined for every base task and
    core task. *)
Theorem coreEnvName_round_trip (h : Host) (conf : ProjectConf) (d : Task)
        (nm : string) :
  In d (getTasks_parsed h [] conf) ->
  match _coreEnvName (mkCreator nm (definition_args d)) with
  | Some n =>
      exists e t,
        In e (projectData conf) /\ env e = n /\ In t baseTasks /\
        taskCompatibleWithPlatform t (platform e) = true /\
        d = create h (mkCreator (name t)
                                (args t ++ ["--environment"; env e]))
  | None =>
      (exists t, In t baseTasks /\ d = create h (mkCreator (name t) (args t)))
      \/ In d (Spec.core_tasks h)
  end.
Proof.
  intros Hin. apply getTasks_parsed_In in Hin.
  destruct Hin
    as [[t [Ht [_ ->]]] | [[_ [e [t [He [Ht [Hc ->]]]]]] | Hcore]].
  - cbn [Spec.base_task create definition_args _args].
    rewrite coreEnvName_plain by now apply catalog_no_environment.
    left. eauto.
  - cbn [Spec.env_task create definition_args _args].
    rewrite coreEnvName_qualified by now apply catalog_no_environment.
    exists e, t. auto.
  - rewrite coreEnvName_plain; [now right|].
    intros Hx. apply (core_args_plain h _ _ Hcore) in Hx.
    intuition discriminate.
Qed.

Lemma coreEnvName_round_trip_witness :
  exists e t,
    In e (projectData Sample.conf_uno_esp) /\ env e = "esp" /\
    In t baseTasks /\
    taskCompatibleWithPlatform t (platform e) = true /\
    create (Sample.posix Sample.conf_uno_esp)
           (mkCreator "Test" ["test"; "--environment"; "esp"]) =
    create (Sample.posix Sample.conf_uno_esp)
           (mkCreator (name t) (args t ++ ["--environment"; env e])).
Proof.
  apply (coreEnvName_round_trip
           (Sample.posix Sample.conf_uno_esp) Sample.conf_uno_esp
           (create (Sample.posix Sample.conf_uno_esp)
                   (mkCreator "Test" ["test"; "--environment"; "esp"]))
           "Test").
  apply getTasks_parsed_In. right. left. split; [simpl; lia|].
  exists (mkEnv "esp" "espressif32"), (mkTemplate "Test" ["test"]).
  simpl. tauto.
Defined.

Lemma indexOf_bound (x : string) (l : list string) (i : nat) :
  indexOf x l = Some i -> i < length l.
Proof.
  revert i. induction l as [|y l IH]; intros i; simpl; [discriminate|].
  destruct (String.eqb y x).
  - intros [= <-]. lia.
  - destruct (indexOf x l) as [j|]; [|discriminate].
    intros [= <-]. specialize (IH j eq_refl). lia.
Qed.

Lemma indexOf_app_found (x : string) (l l' : list string) (i : nat) :
  indexOf x l = Some i -> indexOf x (l ++ l') = Some i.
Proof.
  revert i. induction l as [|y l IH]; intros i; simpl; [discriminate|].
  destruct (String.eqb y x); [trivial|].
  destruct (indexOf x l) as [j|]; [|discriminate].
  intros [= <-]. now rewrite (IH j eq_refl).
Qed.

Lemma indexOf_app_later (x : string) (l l' : list string) :
  indexOf x l = None ->
  indexOf x (l ++ l') = option_map (Nat.add (length l)) (indexOf x l').
Proof.
  intros Hl. induction l as [|y l IH]; simpl in *.
  - now destruct (indexOf x l').
  - destruct (String.eqb y x); [discriminate|].
    destruct (indexOf x l); [discriminate|]. rewrite IH by reflexivity.
    now destruct (indexOf x l').
Qed.

(** X5.  Appending [--environment] and an environment name to an argument
    list does not change what [_coreTargetName] reads, provided the list is
    not empty, its first [--target], if any, is followed by a value, and
    the environment is not itself named [--target].  For an environment
    named [--target] a [run] task without target loses its default: the
    getter is undefined instead of [build]. *)
Theorem coreTargetName_qualified (nm e : string) (l : list string) :
  l <> [] ->
  (forall i, indexOf "--target" l = Some i -> i + 1 < length l) ->
  (e <> "--target" ->
   _coreTargetName (mkCreator nm (l ++ ["--environment"; e])) =
   _coreTargetName (mkCreator nm l) /\
   _coreTargetName (mkCreator nm l) <> None) /\
  (nth_error l 0 = Some "run" -> indexOf "--target" l = None ->
   _coreTargetName (mkCreator nm l) = Some "build" /\
   _coreTargetName (mkCreator nm (l ++ ["--environment"; "--target"]))
   = None).
Proof.
  intros Hne Hvalue.
  destruct l as [|first l']; [contradiction|].
  unfold _coreTargetName. cbn [_args nth_error app].
  change (first :: l' ++ ["--environment"; e])
    with ((first :: l') ++ ["--environment"; e]).
  change (first :: l' ++ ["--environment"; "--target"])
    with ((first :: l') ++ ["--environment"; "--target"]).
  split.
  - intros He. destruct (negb (String.eqb first "run")).
    + split; [reflexivity | discriminate].
    + destruct (indexOf "--target" (first :: l')) as [i|] eqn:Hi.
      * rewrite (indexOf_app_found _ _ _ _ Hi).
        specialize (Hvalue i eq_refl).
        rewrite nth_error_app1 by assumption.
        split; [reflexivity|]. apply nth_error_Some. assumption.
      * rewrite indexOf_app_later by assumption.
        simpl indexOf. apply String.eqb_neq in He. rewrite He.
        split; [reflexivity | discriminate].
  - intros [= ->] Hi. cbn [String.eqb Ascii.eqb Bool.eqb negb].
    rewrite Hi, indexOf_app_later by assumption.
    split; [reflexivity|]. simpl indexOf. cbn [option_map].
    apply nth_error_None. rewrite length_app. simpl. lia.
Qed.

Lemma coreTargetName_qualified_witness :
  _coreTargetName
    (mkCreator "Upload and Monitor"
       (["run"; "--target"; "upload"; "--target"; "monitor"]
          ++ ["--environment"; "uno"])) =
  _coreTargetName
    (mkCreator "Upload and Monitor"
       ["run"; "--target"; "upload"; "--target"; "monitor"]).
Proof.
  apply (coreTargetName_qualified
           "Upload and Monitor" "uno"
           ["run"; "--target"; "upload"; "--target"; "monitor"]).
  - discriminate.
  - intros i Hi. simpl in Hi. injection Hi as <-. simpl. lia.
  - discriminate.
Defined.

(** ** Display names and groups of the output *)


















(** X7.  Every task [getTasks] returns has the group its display name
    shows by prefix: Build when the name starts with [Build], else Clean
    when it starts with [Clean], else Test when it starts with [Test], else
    none.  (The code reads the prefix off the template name; the suffix of
    an environment task does not change it.) *)
Theorem group_by_display_name (h : Host) (conf : ProjectConf) (d : Task) :
  In d (getTasks_parsed h [] conf) ->
  group d = group_of_display_name (task_name d).
Proof.
  intros Hin. apply getTasks_parsed_In in Hin.
  destruct Hin
    as [[t [Ht [_ ->]]] | [[_ [e [t [He [Ht [_ ->]]]]]] | Hcore]].
  - unfold Spec.base_task.
    rewrite name_plain by now apply catalog_no_environment. reflexivity.
  - unfold Spec.env_task.
    rewrite name_qualified by now apply catalog_no_environment.
    destruct (truthy (env e)); [|reflexivity].
    simpl in Ht.
    repeat (destruct Ht as [<-|Ht]; [reflexivity|]). contradiction.
  - destruct Hcore as [<-|[<-|[<-|[]]]]; reflexivity.
Qed.

Lemma group_by_display_name_witness :
  group (create (Sample.posix Sample.conf_uno_esp)
                (mkCreator "Clean"
                   ["run"; "--target"; "clean"; "--environment"; "esp"]))
  = group_of_display_name "Clean (esp)".
Proof.
  apply (group_by_display_name
           (Sample.posix Sample.conf_uno_esp) Sample.conf_uno_esp
           (create (Sample.posix Sample.conf_uno_esp)
                   (mkCreator "Clean"
                      ["run"; "--target"; "clean"; "--environment"; "esp"]))).
  apply getTasks_parsed_In. right. left. split; [simpl; lia|].
  exists (mkEnv "esp" "espressif32"),
         (mkTemplate "Clean" ["run"; "--target"; "clean"]).
  simpl. tauto.
Defined.

(** ** The executable, again *)

Lemma path_fold_file (h : Host) (dirs : list string) (cmd : string) :
  isFileSync h cmd = true ->
  isFileSync h (fold_left (path_step h) dirs cmd) = true.
Proof.
  revert cmd. induction dirs as [|d dirs IH]; intros cmd Hcmd; [exact Hcmd|].
  cbn [fold_left]. apply IH. unfold path_step.
  destruct (isFileSync h (path_join h d cmd)) eqn:E; assumption.
Qed.

Lemma path_fold_match (h : Host) (dirs : list string) (cmd : string) :
  (exists d, In d dirs /\ isFileSync h (path_join h d cmd) = true) ->
  isFileSync h (fold_left (path_step h) dirs cmd) = true.
Proof.
  induction dirs as [|d0 dirs IH]; intros [d [Hin Hd]]; [contradiction|].
  cbn [fold_left]. unfold path_step at 2.
  destruct (isFileSync h (path_join h d0 cmd)) eqn:E.
  - now apply path_fold_file.
  - apply IH. exists d. split; [|assumption].
    destruct Hin as [->|Hin]; [congruence | assumption].
Qed.

(** X8.  On Windows the command [create] runs is the bare
    [platformio.exe] when no PATH entry holds that file, and whenever some
    PATH entry holds it the command is a path [isFileSync] accepts:
    whatever the loop joins, it never ends on a path that is not a file. *)
Theorem pioCmd_file_or_bare (h : Host) :
  IS_WINDOWS h = true ->
  ((forall d, In d (PATH_split h) ->
              isFileSync h (path_join h d "platformio.exe") = false) ->
   pioCmd h = "platformio.exe") /\
  ((exists d, In d (PATH_split h) /\
              isFileSync h (path_join h d "platformio.exe") = true) ->
   isFileSync h (pioCmd h) = true) /\
  (pioCmd h = "platformio.exe" \/ isFileSync h (pioCmd h) = true).
Proof.
  intros Hwin. unfold pioCmd. rewrite Hwin.
  assert (Hnone : (forall d, In d (PATH_split h) ->
                     isFileSync h (path_join h d "platformio.exe") = false) ->
                  fold_left (path_step h) (PATH_split h) "platformio.exe"
                  = "platformio.exe") by apply path_fold_no_match.
  assert (Hsome : (exists d, In d (PATH_split h) /\
                     isFileSync h (path_join h d "platformio.exe") = true) ->
                  isFileSync h (fold_left (path_step h) (PATH_split h)
                                          "platformio.exe") = true)
    by apply path_fold_match.
  split; [exact Hnone | split; [exact Hsome|]].
  destruct (existsb (fun d => isFileSync h (path_join h d "platformio.exe"))
                    (PATH_split h)) eqn:E.
  - right. apply Hsome. now apply existsb_exists.
  - left. apply Hnone. intros d Hd.
    destruct (isFileSync h (path_join h d "platformio.exe")) eqn:Ed;
      [|reflexivity].
    assert (Hex : existsb (fun d => isFileSync h
                                      (path_join h d "platformio.exe"))
                          (PATH_split h) = true)
      by (apply existsb_exists; eauto).
    congruence.
Qed.

Lemma pioCmd_file_or_bare_witness :
  isFileSync Sample.windows_nested (pioCmd Sample.windows_nested) = true.
Proof.
  apply (proj1 (proj2 (pioCmd_file_or_bare Sample.windows_nested eq_refl))).
  exists "tools". split; [simpl; tauto | reflexivity].
Defined.

(** With two absolute PATH entries nothing nests, and the first match is
    what [create] runs. *)
Lemma pioCmd_first_match_witness :
  pioCmd Sample.windows_plain = Spec.executable Sample.windows_plain.
Proof.
  apply (pioCmd_first_match Sample.windows_plain eq_refl).
  intros before d after Hsplit Hd d' Hd'.
  destruct before as [|x [|y before]].
  - injection Hsplit as <- <-. discriminate Hd.
  - injection Hsplit as _ _ <-. contradiction.
  - exfalso. apply (f_equal (@length string)) in Hsplit.
    simpl in Hsplit. rewrite length_app in Hsplit. simpl in Hsplit. lia.
Defined.

(** ** The legacy manifest *)

Lemma str_includes_spec (s p : string) :
  str_includes s p = true <-> exists a b, s = (a ++ p ++ b)%string.
Proof.
  assert (Hpre : forall s, String.prefix p s = true <->
                           exists rest, s = (p ++ rest)%string)
    by (intros s0; apply (startsWith_spec s0 p)).
  split.
  - induction s as [|c s IH]; cbn [str_includes].
    + rewrite orb_false_r. intros H.
      apply Hpre in H. destruct H as [rest H]. now exists "", rest.
    + intros H. apply orb_true_iff in H. destruct H as [H|H].
      * apply Hpre in H. destruct H as [rest H]. now exists "", rest.
      * destruct (IH H) as [a [b E]]. exists (String c a), b.
        simpl. now rewrite E.
  - intros [a [b ->]]. induction a as [|c a IH].
    + assert (H : String.prefix p (p ++ b) = true)
        by (apply Hpre; now exists b).
      change ("" ++ p ++ b)%string with (p ++ b)%string.
      destruct (p ++ b)%string; cbn [str_includes]; rewrite H; reflexivity.
    + change (String c a ++ p ++ b)%string
        with (String c (a ++ p ++ b))%string.
      cbn [str_includes]. rewrite IH. apply orb_true_r.
Qed.

(** X10.  [removeStaticTasks] asks for the deletion of a file only in one
    case: the path is [projectDir/.vscode/tasks.json], it is a file, it
    could be read and its content contains [PlatformIO: Upload SPIFFS
    image]; in that case and no other it calls [unlink], once.  A missing
    or unreadable manifest, or one without that text, is left alone.  An
    error is logged only when that [unlink] throws, and nothing is thrown
    further. *)
Theorem removeStaticTasks_only_legacy (h : Host) (dir : string)
        (unlink : string -> Completion unit) :
  let actions := removeStaticTasks h dir unlink in
  (forall p,
      In (Unlink p) actions <->
      p = manifestPath h dir /\
      isFileSync h p = true /\
      exists a b, readFile h p = Normal (a ++ LEGACY_SENTINEL ++ b)%string) /\
  (forall err,
      In (ConsoleError err) actions <->
      In (Unlink (manifestPath h dir)) actions /\
      unlink (manifestPath h dir) = Thrown err) /\
  (actions = [] \/
   actions = [Unlink (manifestPath h dir)] \/
   exists err, actions = [Unlink (manifestPath h dir); ConsoleError err]).
Proof.
  cbv zeta. unfold removeStaticTasks.
  destruct (isFileSync h (manifestPath h dir)) eqn:Hfile; cbn [negb].
  - destruct (readFile h (manifestPath h dir)) as [data|rerr] eqn:Hread.
    + destruct (str_includes data LEGACY_SENTINEL) eqn:Hinc; cbn [negb].
      * apply str_includes_spec in Hinc. destruct Hinc as [a [b Hdata]].
        destruct (unlink (manifestPath h dir)) as [[]|uerr] eqn:Hun.
        -- split; [|split; [|auto]].
           ++ intros p. split.
              ** intros [[= <-]|[]]. rewrite Hfile, Hread, Hdata. eauto.
              ** intros [-> _]. now left.
           ++ intros err. split; [intros [H|[]]; discriminate H|].
              intros [_ H]. discriminate H.
        -- split; [|split; [|eauto]].
           ++ intros p. split.
              ** intros [[= <-]|[H|[]]]; [|discriminate H].
                 rewrite Hfile, Hread, Hdata. eauto.
              ** intros [-> _]. now left.
           ++ intros err. split.
              ** intros [H|[[= <-]|[]]]; [discriminate H|].
                 split; [now left | reflexivity].
              ** intros [_ [= <-]]. right. now left.
      * split; [|split; [|auto]].
        -- intros p. split; [contradiction|].
           intros [-> [_ [a [b Hr]]]].
           assert (Ed : data = (a ++ LEGACY_SENTINEL ++ b)%string)
             by congruence.
           assert (Hc : str_includes data LEGACY_SENTINEL = true)
             by (apply str_includes_spec; eauto).
           congruence.
        -- intros err. split; [contradiction | intros [[] _]].
    + change (str_includes "" LEGACY_SENTINEL) with false. cbn [negb].
      split; [|split; [|auto]].
      * intros p. split; [contradiction|].
        intros [-> [_ [a [b Hr]]]]. congruence.
      * intros err. split; [contradiction | intros [[] _]].
  - split; [|split; [|auto]].
    + intros p. split; [contradiction|]. intros [-> [Hf _]]. congruence.
    + intros err. split; [contradiction | intros [[] _]].
Qed.

Lemma removeStaticTasks_only_legacy_witness :
  In (Unlink "/proj/.vscode/tasks.json")
     (removeStaticTasks Sample.posix_legacy "/proj" Sample.unlink_throws) /\
  In (ConsoleError "EPERM")
     (removeStaticTasks Sample.posix_legacy "/proj" Sample.unlink_throws).
Proof.
  pose proof (removeStaticTasks_only_legacy
                Sample.posix_legacy "/proj" Sample.unlink_throws) as H.
  cbv zeta in H. destruct H as [Hu [He _]].
  assert (Hin : In (Unlink "/proj/.vscode/tasks.json")
                   (removeStaticTasks Sample.posix_legacy "/proj"
                                      Sample.unlink_throws)).
  { apply Hu. split; [reflexivity | split; [reflexivity|]].
    exists "taskName: ", ", args: [run]". reflexivity. }
  split; [exact Hin|].
  apply He. split; [exact Hin | reflexivity].
Defined.

Example removeStaticTasks_samples :
  removeStaticTasks Sample.posix_legacy "/proj" Sample.unlink_ok =
    [Unlink "/proj/.vscode/tasks.json"] /\
  removeStaticTasks Sample.posix_legacy "/proj" Sample.unlink_throws =
    [Unlink "/proj/.vscode/tasks.json"; ConsoleError "EPERM"] /\
  removeStaticTasks Sample.posix_legacy "/elsewhere" Sample.unlink_ok = [] /\
  removeStaticTasks (Sample.posix Sample.conf_uno) "/proj" Sample.unlink_ok
    = [].
Proof. repeat split; reflexivity. Qed.

(** ** Invariants of the lifecycle *)

Module LifecycleMore.

Import Lifecycle LifecycleFacts.
Local Open Scope nat_scope.
#[local] Arguments dispose : simpl never.
#[local] Arguments refresh : simpl never.
#[local] Arguments requestRefresh : simpl never.

(** What [refresh] leaves registered, in a state that tracks all its
    registrations. *)
Lemma refresh_registered (s : State) :
  live s = subscriptions s ->
  registered (refresh s) =
  if watcher_throws s then provider_only else provider_and_watcher.
Proof.
  intros Hwf. pose proof (dispose_live s Hwf) as Hl.
  destruct (dispose_fields s) as [_ [_ [_ [_ [_ [Hw _]]]]]].
  unfold registered, refresh, addProjectConfigWatcher.
  cbn [register_push watcher_throws]. rewrite Hw.
  destruct (watcher_throws s); cbn; rewrite Hl; reflexivity.
Qed.

Lemma requestRefresh_throws (s : State) :
  watcher_throws (requestRefresh s) = watcher_throws s.
Proof.
  unfold requestRefresh. destruct (_refreshTimeout s); reflexivity.
Qed.

Lemma requestRefresh_live (s : State) :
  live (requestRefresh s) = live s.
Proof.
  unfold requestRefresh. destruct (_refreshTimeout s); reflexivity.
Qed.

Lemma refresh_tidy (s : State) : wf s -> tidy (refresh s).
Proof.
  intros Hwf. split; [now apply refresh_wf|]. right.
  destruct Hwf as [Hl _]. rewrite (refresh_registered s Hl).
  destruct (refresh_fields s) as [_ [_ [_ [Hw _]]]]. now rewrite Hw.
Qed.

Lemma step_tidy (s : State) (e : Event) : tidy s -> tidy (step s e).
Proof.
  intros [Hwf Hreg].
  assert (Hreq : tidy (requestRefresh s)).
  { split; [now apply requestRefresh_wf|]. unfold registered.
    now rewrite requestRefresh_live, requestRefresh_throws. }
  destruct e; cbn [step].
  - destruct (handler_live CreateHandler s); [exact Hreq | now split].
  - destruct (handler_live ChangeHandler s); [exact Hreq | now split].
  - destruct (handler_live DeleteHandler s); [|now split].
    split; [now apply dispose_wf|]. left. unfold registered.
    destruct Hwf as [Hl _]. now rewrite (dispose_live s Hl).
  - destruct Hwf as [Hl [Hnone | [id [dl [Hone Hid]]]]].
    + rewrite advance_idle by assumption.
      split; [split; [exact Hl | now left] | exact Hreg].
    + destruct (Nat.le_gt_cases dl (now s + d)) as [Hle | Hgt].
      * rewrite (advance_fire _ id dl) by assumption.
        apply refresh_tidy. split; [exact Hl | now left].
      * rewrite (advance_wait _ id dl) by assumption.
        split; [|exact Hreg]. split; [exact Hl|].
        right. exists id, dl. split; [reflexivity | exact Hid].
Qed.

Lemma run_tidy (evs : list Event) (s : State) : tidy s -> tidy (run evs s).
Proof.
  revert s. induction evs as [|e evs IH]; intros s H; [exact H|].
  cbn [run fold_left]. apply IH. now apply step_tidy.
Qed.

Lemma step_throws (s : State) (e : Event) :
  wf s -> watcher_throws (step s e) = watcher_throws s.
Proof.
  intros [Hl Hok].
  destruct e; cbn [step].
  - destruct (handler_live CreateHandler s);
      [apply requestRefresh_throws | reflexivity].
  - destruct (handler_live ChangeHandler s);
      [apply requestRefresh_throws | reflexivity].
  - destruct (handler_live DeleteHandler s); [|reflexivity].
    now destruct (dispose_fields s) as [_ [_ [_ [_ [_ [Hw _]]]]]].
  - destruct Hok as [Hnone | [id [dl [Hone Hid]]]].
    + now rewrite advance_idle by assumption.
    + destruct (Nat.le_gt_cases dl (now s + d)) as [Hle | Hgt].
      * rewrite (advance_fire _ id dl) by assumption.
        match goal with
        | |- context [refresh ?x] =>
            destruct (refresh_fields x) as [_ [_ [_ [Hw _]]]]
        end.
        exact Hw.
      * now rewrite (advance_wait _ id dl) by assumption.
Qed.

Lemma run_throws (evs : list Event) (s : State) :
  wf s -> watcher_throws (run evs s) = watcher_throws s.
Proof.
  revert s. induction evs as [|e evs IH]; intros s H; [reflexivity|].
  cbn [run fold_left]. fold (run evs (step s e)).
  rewrite IH by now apply step_wf. now apply step_throws.
Qed.

(** X11.  Whatever file events and delays follow the construction of the
    provider, registrations never pile up: the host holds either nothing,
    or exactly what one [refresh] registers (the provider, then the watcher
    and its three handlers, or the provider alone when the watcher cannot
    be created); everything it holds is on [subscriptions]; and at most one
    timeout is pending. *)
Theorem registrations_never_accumulate (evs : list Event) (t0 : nat)
        (throws : bool) :
  let s := run evs (construct t0 throws) in
  (registered s = [] \/
   registered s = if throws then provider_only else provider_and_watcher) /\
  live s = subscriptions s /\
  length (timers s) <= 1.
Proof.
  cbv zeta.
  assert (Ht : tidy (construct t0 throws)).
  { split; [apply construct_wf | now left]. }
  pose proof (run_tidy evs _ Ht) as [[Hl Hok] Hreg].
  rewrite (run_throws evs _ (construct_wf t0 throws)) in Hreg.
  split; [exact Hreg | split; [exact Hl|]].
  destruct Hok as [-> | [id [dl [-> _]]]]; simpl; lia.
Qed.

(** *** Every regeneration has a trigger *)

Lemma step_budget (s : State) (e : Event) :
  wf s ->
  refreshes (step s e) + length (timers (step s e)) <=
  refreshes s + length (timers s) + count_triggers [e].
Proof.
  intros [Hl Hok].
  assert (Hreq : refreshes (requestRefresh s)
                 + length (timers (requestRefresh s))
                 <= refreshes s + length (timers s) + 1).
  { destruct (requestRefresh_fields s Hok) as [Ht [_ [_ [_ [_ Hr]]]]].
    rewrite Ht, Hr. simpl. lia. }
  destruct e; cbn [step count_triggers].
  - destruct (handler_live CreateHandler s); [exact Hreq | lia].
  - destruct (handler_live ChangeHandler s); [exact Hreq | lia].
  - destruct (handler_live DeleteHandler s); [|lia].
    destruct (dispose_fields s) as [_ [_ [_ [_ [Htm [_ Hr]]]]]].
    rewrite Htm, Hr. lia.
  - destruct Hok as [Hnone | [id [dl [Hone Hid]]]].
    + rewrite advance_idle by assumption. rewrite Hnone. simpl. lia.
    + destruct (Nat.le_gt_cases dl (now s + d)) as [Hle | Hgt].
      * rewrite (advance_fire _ id dl) by assumption.
        match goal with
        | |- context [refresh ?x] =>
            destruct (refresh_fields x) as [_ [_ [Htm [_ Hr]]]]
        end.
        rewrite Htm, Hr, Hone. simpl. lia.
      * rewrite (advance_wait _ id dl) by assumption.
        rewrite Hone. simpl. lia.
Qed.

Lemma count_triggers_cons (e : Event) (evs : list Event) :
  count_triggers (e :: evs) = count_triggers [e] + count_triggers evs.
Proof. destruct e; reflexivity. Qed.

Lemma run_budget (evs : list Event) (s : State) :
  wf s ->
  refreshes (run evs s) + length (timers (run evs s)) <=
  refreshes s + length (timers s) + count_triggers evs.
Proof.
  revert s. induction evs as [|e evs IH]; intros s Hwf.
  - simpl. lia.
  - cbn [run fold_left]. fold (run evs (step s e)).
    specialize (IH (step s e) (step_wf s e Hwf)).
    pose proof (step_budget s e Hwf) as Hs.
    rewrite count_triggers_cons. lia.
Qed.

(** X12.  [refresh] never runs on its own: after any file events and
    delays, the number of runs of [refresh] plus the number of pending
    timeouts is at most one (the initial load) plus the number of create
    and change events so far.  Delete events and the passing of time add
    nothing. *)
Theorem refresh_needs_trigger (evs : list Event) (t0 : nat)
        (throws : bool) :
  let s := run evs (construct t0 throws) in
  refreshes s + length (timers s) <= 1 + count_triggers evs.
Proof.
  cbv zeta.
  pose proof (run_budget evs _ (construct_wf t0 throws)) as H.
  change (refreshes (construct t0 throws)) with 0 in H.
  change (length (timers (construct t0 throws))) with 1 in H.
  lia.
Qed.

(** *** When the watcher cannot be created *)

Lemma provider_only_quiet (evs : list Event) (s : State) :
  registered s = provider_only -> timers s = [] ->
  refreshes (run evs s) = refreshes s /\
  registered (run evs s) = provider_only /\
  timers (run evs s) = [].
Proof.
  revert s. induction evs as [|e evs IH]; intros s Hreg Ht.
  - auto.
  - cbn [run fold_left]. fold (run evs (step s e)).
    assert (Hlive : exists r, live s = [r] /\ kind r = TaskProviderReg).
    { unfold registered, provider_only in Hreg.
      destruct (live s) as [|r [|r' l]]; try discriminate Hreg.
      injection Hreg as Hk. eauto. }
    destruct Hlive as [r [Hl Hk]].
    assert (Hstep : step s e = s \/
                    exists t, step s e =
                      mkState (subscriptions s) (_refreshTimeout s) t
                              (next_id s) [] (live s) (watcher_throws s)
                              (refreshes s)).
    { destruct e; cbn [step];
        [ | | | right; exists (now s + d); now apply advance_idle ];
        unfold handler_live; rewrite Hl; cbn [existsb]; rewrite Hk;
        cbn [kind_eqb orb]; auto. }
    destruct Hstep as [-> | [t ->]]; [now apply IH|].
    destruct (IH (mkState (subscriptions s) (_refreshTimeout s) t
                          (next_id s) [] (live s) (watcher_throws s)
                          (refreshes s))) as [Hr [Hreg' Ht']];
      [exact Hreg | reflexivity | auto].
Qed.

(** X13.  When [createFileSystemWatcher] throws, the first [refresh]
    still registers the provider, and that is all that ever happens: once
    the initial delay has passed, whatever file events (creation, change,
    deletion) and delays follow, [refresh] has run exactly once, the
    provider alone is registered, and no timeout is pending. *)
Theorem watcher_failure_no_auto_refresh (t0 d : nat) (evs : list Event) :
  AUTO_REFRESH_DELAY <= d ->
  let s := run (Elapse d :: evs) (construct t0 true) in
  refreshes s = 1 /\ registered s = provider_only /\ timers s = [].
Proof.
  intros Hd. cbv zeta. cbn [run fold_left].
  fold (run evs (step (construct t0 true) (Elapse d))).
  assert (Hp : pending (construct t0 true)).
  { exists 1. split; reflexivity. }
  destruct (fire_pending _ d Hp Hd) as [Ht Hr].
  assert (Hreg : registered (step (construct t0 true) (Elapse d))
                 = provider_only).
  { cbn [step].
    rewrite (advance_fire _ 1 (t0 + AUTO_REFRESH_DELAY))
      by (trivial; simpl; lia).
    now rewrite refresh_registered. }
  destruct (provider_only_quiet evs _ Hreg Ht) as [Hr' [Hreg' Ht']].
  split; [|split]; [|assumption|assumption].
  rewrite Hr', Hr. reflexivity.
Qed.

Lemma watcher_failure_no_auto_refresh_witness :
  let s := run [Elapse 1000; FsChange; Elapse 5000; FsDelete; FsCreate;
                Elapse 5000]
               (construct 0 true) in
  refreshes s = 1 /\ registered s = provider_only /\ timers s = [].
Proof.
  apply (watcher_failure_no_auto_refresh
           0 1000 [FsChange; Elapse 5000; FsDelete; FsCreate; Elapse 5000]).
  unfold AUTO_REFRESH_DELAY. lia.
Defined.

End LifecycleMore.
